(** * apply-pgscatalog-prs: matching a PGS Catalog weight matrix to plink data

    A shallow embedding of [apply-pgscatalog-prs.py].  The script is a
    sequence of effects: it prints, asks the operator questions, reads and
    writes files, runs [gunzip] and [plink], and leaves through [exit(n)].
    Those effects are threaded through a small state-and-exit monad [M];
    the tables are pandas data frames, modelled by their cells.

    What is left out: drawing the [rich] layout ([render],
    [render_file_table], [console.print(layout)]) writes to the screen only
    and takes no part in any decision.  Quoting of fields by [to_csv] is not
    modelled: a written file is kept as records of fields. *)

From Stdlib Require Import ZArith QArith Floats.SpecFloat.
From stdpp Require Import gmap strings list pretty.

Local Open Scope string_scope.
Local Open Scope Z_scope.

(** ** Cells and columns *)

(** A cell of a data frame, as Python sees it: a [str], an [int], or a
    [float] (binary64; [nan] is pandas' missing value). *)
Inductive cell : Type :=
| CStr (s : string)
| CInt (z : Z)
| CFloat (f : spec_float).

Global Instance spec_float_eq_dec : EqDecision spec_float.
Proof. solve_decision. Defined.

Global Instance cell_eq_dec : EqDecision cell.
Proof. solve_decision. Defined.

Abbreviation Series := (list cell).

(** binary64 *)
Definition prec : Z := 53.
Definition emax : Z := 1024.

(** [float(z)] *)
Definition Z2SF (z : Z) : spec_float := binary_normalize prec emax z 0 false.

(** [pd.isna] *)
Definition isna (c : cell) : bool :=
  match c with
  | CFloat S754_nan => true
  | _ => false
  end.

(** [Series.unique()]: the distinct values in order of first appearance. *)
Fixpoint unique (s : Series) : Series :=
  match s with
  | [] => []
  | c :: s' => c :: filter (λ d, d ≠ c) (unique s')
  end.

(** [Series.nunique()]: missing values are not counted ([dropna=True]). *)
Definition nunique (s : Series) : nat :=
  length (unique (filter (λ c, isna c = false) s)).

(** The [str] objects among the cells. *)
Definition str_values (s : Series) : list string :=
  omap (λ c, match c with CStr x => Some x | _ => None end) s.

(** ** Formatting numbers *)

(** [round-half-even (n / d)] for [0 <= n], [0 < d]. *)
Definition round_half_even (n d : Z) : Z :=
  let q := n / d in
  let r := n mod d in
  match 2 * r ?= d with
  | Lt => q
  | Gt => q + 1
  | Eq => if Z.even q then q else q + 1
  end.

(** Bring [n / d] into [[1, 10)], counting the decimal exponent. *)
Fixpoint scale_down (fuel : nat) (n d k : Z) : Z * Z * Z :=
  match fuel with
  | O => (n, d, k)
  | S fuel' => if 10 * d <=? n then scale_down fuel' n (10 * d) (k + 1) else (n, d, k)
  end.

Fixpoint scale_up (fuel : nat) (n d k : Z) : Z * Z * Z :=
  match fuel with
  | O => (n, d, k)
  | S fuel' => if n <? d then scale_up fuel' (10 * n) d (k - 1) else (n, d, k)
  end.

(** The decimal digits of [q], most significant first, padded to [len]. *)
Fixpoint digits (len : nat) (q : Z) : string :=
  match len with
  | O => ""
  | S len' => digits len' (q / 10) ++ pretty (q mod 10)
  end.

(** Mantissa (an integer of [p + 1] digits) and decimal exponent of the
    positive number [m * 2^e], correctly rounded to [p] digits after the
    point.  The decimal exponent of a binary64 number lies between -324
    and 308, so 400 steps of scaling are enough. *)
Definition sci_round (p : nat) (m : positive) (e : Z) : Z * Z :=
  let n := if 0 <=? e then Z.pos m * 2 ^ e else Z.pos m in
  let d := if 0 <=? e then 1 else 2 ^ (- e) in
  let '(n1, d1, k1) := scale_down 400 n d 0 in
  let '(n2, d2, k2) := scale_up 400 n1 d1 k1 in
  let q := round_half_even (n2 * 10 ^ Z.of_nat p) d2 in
  if 10 ^ Z.of_nat (S p) <=? q then (10 ^ Z.of_nat p, k2 + 1) else (q, k2).

(** The exponent part of C's [%e]: a sign and at least two digits. *)
Definition sci_exponent (k : Z) : string :=
  (if k <? 0 then "-" else "+") ++
  (if Z.abs k <? 10 then "0" else "") ++ pretty (Z.abs k).

(** ["%.<p>e" % f], for [1 <= p]. *)
Definition format_e (p : nat) (f : spec_float) : string :=
  match f with
  | S754_nan => "nan"
  | S754_infinity s => if s then "-inf" else "inf"
  | S754_zero s => (if s then "-" else "") ++ "0." ++ digits p 0 ++ "e+00"
  | S754_finite s m e =>
      let '(q, k) := sci_round p m e in
      (if s then "-" else "") ++
      digits 1 (q / 10 ^ Z.of_nat p) ++ "." ++ digits p (q mod 10 ^ Z.of_nat p) ++
      "e" ++ sci_exponent k
  end.

(** A field as [to_csv(..., float_format="%.4e")] writes it; a missing
    value is written as the empty string ([na_rep]). *)
Definition csv_field (c : cell) : string :=
  match c with
  | CStr s => s
  | CInt z => pretty z
  | CFloat f => if isna c then "" else format_e 4 f
  end.

(** ** Data frames *)

(** A pandas data frame: the row labels and the named columns, in order.
    Every column has one cell per row ([wf]). *)
Record DataFrame : Type := {
  index : list cell;
  columns : list (string * Series)
}.

Definition wf (df : DataFrame) : Prop :=
  Forall (λ c, length c.2 = length (index df)) (columns df).

(** [df.shape[0]] *)
Definition shape0 (df : DataFrame) : nat := length (index df).

(** [df[name]]; [None] stands for the [KeyError]. *)
Fixpoint get_column (name : string) (cols : list (string * Series)) : option Series :=
  match cols with
  | [] => None
  | c :: cols' => if decide (c.1 = name) then Some c.2 else get_column name cols'
  end.

Definition getitem (df : DataFrame) (name : string) : option Series :=
  get_column name (columns df).

(** [df[name] = s]: an existing column is replaced where it stands, a new
    one is added last. *)
Fixpoint set_column (name : string) (s : Series) (cols : list (string * Series))
  : list (string * Series) :=
  match cols with
  | [] => [(name, s)]
  | c :: cols' =>
      if decide (c.1 = name) then (name, s) :: cols' else c :: set_column name s cols'
  end.

Definition setitem (df : DataFrame) (name : string) (s : Series) : DataFrame :=
  {| index := index df; columns := set_column name s (columns df) |}.

(** [df.iloc[rows]]: the rows at the given positions, in the given order. *)
Definition take_rows {A} (rows : list nat) (l : list A) : list A :=
  omap (λ i, l !! i) rows.

Definition iloc (df : DataFrame) (rows : list nat) : DataFrame :=
  {| index := take_rows rows (index df);
     columns := (λ c, (c.1, take_rows rows c.2)) <$> columns df |}.

(** [df.rename(mapper)] without [columns=]: pandas applies the mapper to
    the row labels. *)
Definition rename (mapper : gmap string string) (df : DataFrame) : DataFrame :=
  {| index := (λ l, match l with
                    | CStr s => CStr (default s (mapper !! s))
                    | _ => l
                    end) <$> index df;
     columns := columns df |}.

(** A row of the plink [.bim] table, under the names [load_data] gives to
    its columns. *)
Record VariantRecord : Type := {
  chr_name : cell;
  rsid : cell;
  chr_position : cell;
  base_allele : cell;
  alternative_allele : cell
}.

(** A row of plink's [.profile] table, labelled by [IID]; only the columns
    the script reads.  [CNT2] is a count, an [int64] column. *)
Record ScoreRecord : Type := {
  IID : cell;
  CNT2 : Z;
  SCORESUM : cell
}.

(** ** The world the script runs in *)

Inductive File : Type :=
| Table (df : DataFrame)              (* delimited text, as [read_table] parses it *)
| Bim (rows : list VariantRecord)     (* a plink variant table *)
| Profile (rows : list ScoreRecord)   (* a plink score table *)
| Csv (lines : list (list string))    (* written by [to_csv]: records of fields *)
| Opaque.                             (* anything else, e.g. [.bed], [.fam] *)

Inductive Event : Type :=
| Print (line : string)                          (* [print] *)
| PrintHelp                                      (* [parser.print_help()] *)
| Printout (text : string)                       (* [printout] *)
| MatchReport (shared total panel : nat)         (* the [printout] of [check_the_files_match] *)
| Ask (question : string) (choices : list string)  (* [Prompt.ask] *)
| Run (argv : list string)                       (* [subprocess.run] *)
| Write (path : string).                         (* [to_csv] *)

Inductive Exn : Type :=
| KeyError (key : string)
| AssertionError (msg : string)
| RuntimeError (msg : string)
| TypeError (msg : string)
| ParserError (path : string)
| ZeroDivisionError
| EOFError.

Record World : Type := {
  stdin : list string;          (* the operator's answers, one per line *)
  files : gmap string File;     (* the file system *)
  trace : list Event            (* what has happened so far, oldest first *)
}.

(** What the script cannot know: the programs it runs, and how Python
    writes a float as text. *)
Record Env : Type := {
  (* return code, standard error and the files left behind *)
  subprocess : list string → gmap string File → Z * string * gmap string File;
  (* [str(x)] for a float that is not [nan] *)
  float_str : spec_float → string
}.

(** How a computation ends: with a value, through [exit(status)], or with
    an exception nobody catches. *)
Inductive Outcome (A : Type) : Type :=
| Return (a : A)
| Exit (status : Z)
| Raise (e : Exn).
Arguments Return {A} a.
Arguments Exit {A} status.
Arguments Raise {A} e.

Definition M (A : Type) : Type := World → Outcome A * World.

Global Instance M_ret : MRet M := λ A a w, (Return a, w).

Global Instance M_bind : MBind M := λ A B f m w,
  match m w with
  | (Return a, w') => f a w'
  | (Exit status, w') => (Exit status, w')
  | (Raise e, w') => (Raise e, w')
  end.

Definition exit {A} (status : Z) : M A := λ w, (Exit status, w).
Definition raise {A} (e : Exn) : M A := λ w, (Raise e, w).

(** The world after more events. *)
Definition logged (w : World) (events : list Event) : World :=
  {| stdin := stdin w; files := files w; trace := trace w ++ events |}.

Definition emit (ev : Event) : M unit := λ w, (Return tt, logged w [ev]).

Definition print (line : string) : M unit := emit (Print line).
Definition print_help : M unit := emit PrintHelp.
Definition printout (text : string) : M unit := emit (Printout text).

(** [os.path.isfile] *)
Definition isfile (path : string) : M bool := λ w,
  (Return (bool_decide (is_Some (files w !! path))), w).

(** [for x in xs: body(x)] *)
Fixpoint for_each {A} (xs : list A) (body : A → M unit) : M unit :=
  match xs with
  | [] => mret tt
  | x :: xs' => body x ;; for_each xs' body
  end.

(** [if cond: body] *)
Definition when (cond : bool) (body : M unit) : M unit :=
  if cond then body else mret tt.

(** [c.isspace()] for an ASCII character: tab to carriage return, the four
    separators, and the space. *)
Definition is_space (c : Ascii.ascii) : bool :=
  let n := Ascii.nat_of_ascii c in
  bool_decide (9 ≤ n ≤ 13)%nat || bool_decide (28 ≤ n ≤ 32)%nat.

(** [s.lstrip()], [s.rstrip()] and [s.strip()] *)
Fixpoint lstrip (s : string) : string :=
  match s with
  | EmptyString => EmptyString
  | String c s' => if is_space c then lstrip s' else s
  end.

Fixpoint rstrip (s : string) : string :=
  match s with
  | EmptyString => EmptyString
  | String c s' =>
      match rstrip s' with
      | EmptyString => if is_space c then EmptyString else String c EmptyString
      | kept => String c kept
      end
  end.

Definition strip (s : string) : string := rstrip (lstrip s).

(** The first answer that is one of the choices once the white space
    around it is stripped, as [Prompt.ask] reads a line: it strips the line,
    takes it if it is one of the choices and asks again after any other. *)
Fixpoint first_choice (choices answers : list string) : option (string * list string) :=
  match answers with
  | [] => None
  | a :: rest =>
      if decide (strip a ∈ choices) then Some (strip a, rest)
      else first_choice choices rest
  end.

(** [Prompt.ask(question, choices=choices)] *)
Definition Prompt_ask (question : string) (choices : list string) : M string := λ w,
  let w' := logged w [Ask question choices] in
  match first_choice choices (stdin w) with
  | Some (a, rest) =>
      (Return a, {| stdin := rest; files := files w'; trace := trace w' |})
  | None => (Raise EOFError, {| stdin := []; files := files w'; trace := trace w' |})
  end.

(** [subprocess.run(argv)]: return code and standard error. *)
Definition subprocess_run (E : Env) (argv : list string) : M (Z * string) := λ w,
  let '(rc, err, fs) := subprocess E argv (files w) in
  (Return (rc, err), logged {| stdin := stdin w; files := fs; trace := trace w |} [Run argv]).

(** [pd.read_table(path, ...)] for each of the three kinds of table. *)
Definition read_table (path : string) : M DataFrame := λ w,
  match files w !! path with
  | Some (Table df) => (Return df, w)
  | _ => (Raise (ParserError path), w)
  end.

Definition read_bim (path : string) : M (list VariantRecord) := λ w,
  match files w !! path with
  | Some (Bim rows) => (Return rows, w)
  | _ => (Raise (ParserError path), w)
  end.

Definition read_profile (path : string) : M (list ScoreRecord) := λ w,
  match files w !! path with
  | Some (Profile rows) => (Return rows, w)
  | _ => (Raise (ParserError path), w)
  end.

(** [to_csv]: a header line, then one line per row; every line starts with
    the index field, since [index=True] is the default. *)
Definition csv_lines (index_name : string) (idx : list cell)
    (cols : list (string * Series)) : list (list string) :=
  (index_name :: cols.*1) ::
  imap (λ i l, csv_field l :: omap (λ c, csv_field <$> c.2 !! i) cols) idx.

(** [df[names].to_csv(path, sep="\t", float_format="%.4e")] *)
Definition to_csv (index_name : string) (idx : list cell)
    (cols : list (string * option Series)) (path : string) : M unit := λ w,
  match list_find (λ c : string * option Series, c.2 = None) cols with
  | Some (_, (name, _)) => (Raise (KeyError name), w)
  | None =>
      let lines := csv_lines index_name idx (omap (λ c, pair c.1 <$> c.2) cols) in
      (Return tt, logged {| stdin := stdin w; files := <[path := Csv lines]> (files w);
                             trace := trace w |} [Write path])
  end.

(** The field a line of a written file carries under a column name of the
    header. *)
Definition field (header line : list string) (name : string) : option string :=
  list_find (λ h, h = name) header ≫= λ found, line !! found.1.

(** Four significant digits in scientific notation, as the specification
    words the weight format: one digit before the point, three after. *)
Definition four_significant_digits (f : spec_float) : string := format_e 3 f.

(** ** The script *)

(** The parsed command line: [args.genetic], [args.prs_wm], [args.out],
    each [None] unless given. *)
Record Args : Type := {
  genetic : option string;
  prs_wm : option string;
  out : option string
}.

Definition check_input (args : Args) : M unit :=
  match genetic args with
  | None =>
      print "plink genetic data are required";; print_help;; exit 1
  | Some g =>
      for_each ["bed"; "bim"; "fam"] (λ ext,
        found ← isfile (g ++ "." ++ ext);
        when (negb found)
          (print ("plink genetic data are malformed - " ++ g ++ "." ++ ext ++ " is missing");;
           exit 4));;
      match prs_wm args with
      | None =>
          print "PRS weight matrix is required";; print_help;; exit 2
      | Some p =>
          found ← isfile p;
          when (negb found)
            (print "PRS weight matrix file does not exist";; exit 5);;
          when (bool_decide (out args = None))
            (print "Output prefix is required";; print_help;; exit 3)
      end
  end.

Definition misaligned_files_message : list string := [
  "ERROR: Less that a half of the PGSCatalog SNPs are available.";
  "ERROR: This may be for one of the following reasons:";
  "ERROR: 1. Either you are using un-imputed plink data. THEN you have to impute the data.";
  "ERROR: *2. Or you have data imputed to a very specific panel that does not contain a lot of common variants (happens seldom, probably won't happen to you). THEN you have to impute the data to a more general panel.";
  "ERROR: 3. Or the PRS weight matrix is using a different reference genome than your plink data. THEN you need to liftover your data to the correct reference genome.";
  "ERROR: *4. Or the PRS was done using a very specific chip and contains such unique SNPs that no imputation panel has them (happens seldom, probably won't happen to you). THEN you have to find an imputation panel that has these SNPs and impute the data to this panel.";
  "Here is your troubleshoot guide:";
  "---";
  "Q: How do I figure out if the data are imputed or not, and to which panel? (problems 1,2)";
  "A: Ask your data provider (typically the phenomics platform) about it. Imputed data will contain at least a few millions SNPs.";
  "---";
  "Q: How do I figure out if the reference genomes are different between the data? (problem 3)";
  "A: Ask your data provider (typically the phenomics platform) which reference genome was used for your data. Check the reference genome of your score in the 'PGS Catalog Metadata' Excel sheet at the http://www.pgscatalog.org/downloads/ . See, if they match or not.";
  "---";
  "Q: I have no idea about reference genomes and imputation, what do I do?";
  "A: We did our best we could do automatically processing the PGSCatalog data. But if want to run the analysis, it is ultimately your responsibility to assure that you have proper data. You don't want to publish the results that are fake because you mishandled the data, do you? ";
  "Ideally, your data provider (typically the phenomics platform) would *always* supply data to you in the same reference genome, imputed to the same imputation panel. If this was the case, this script would have been smarter at handling these issues automatically. But at the moment when this script was written this was not the case =/ Unfortunately, this means it is your problem now to figure it all out or to force your data provider to work properly ¯\_(ツ)_/¯";
  "---";
  "Q: I still have no idea, but I need this PRS, what do I do?";
  "A: Invite a bioinformatician with programming / data science background, explain your problem to them, and show this error message."
].

Definition print_error_misaligned_files : M unit :=
  for_each misaligned_files_message print.

Definition non_annotated_plink_file_message : list string := [
  "ERROR: Your plink data have no variants IDs at all.";
  "ERROR: Ask your data supplier (probably the phenomics platform) to annotate it using dbSNP,";
  "ERROR: or at least assign the dummy 'chrom:pos' ids to the SNPs, if you know what you are doing.";
  "ERROR: This script do *not* need *dbSNP* variant IDs, but it *does* need *some* IDs.";
  "---";
  "P.S. We do *not* recommend using any kind of non-dbSNP ids,";
  " because your colleagues' scripts may, unfortunately, rely on dbSNP annotation.";
  " If you are ok with having 'chrom:pos' encoding and you think that you know what you are doing,";
  " then you must be able to construct the annotation command using bash 'cut' and 'paste' yourself."
].

Definition print_non_annotated_plink_file_error : M unit :=
  for_each non_annotated_plink_file_message printout.

(** [str(c)] *)
Definition str (E : Env) (c : cell) : string :=
  match c with
  | CStr s => s
  | CInt z => pretty z
  | CFloat f => if isna c then "nan" else float_str E f
  end.

(** [s.astype(str)] *)
Definition astype_str (E : Env) (s : Series) : list string := str E <$> s.

(** The QC test on the plink identifiers: one distinct value, and it is
    ["."]. *)
Definition no_variant_ids (ids : Series) : bool :=
  bool_decide (nunique ids = 1%nat) && bool_decide (head (unique ids) = Some (CStr ".")).

Definition rsid_question : string :=
  "Which column in PRS file contains the [bold red]rsID[/bold red]?".

Definition prep_keys_rsid (E : Env) (pgscatalog_df : DataFrame)
    (plink_variants_df : list VariantRecord) : M DataFrame :=
  when (no_variant_ids (rsid <$> plink_variants_df))
    (print_non_annotated_plink_file_error;; exit 30);;
  rsid_column ← Prompt_ask rsid_question (columns pgscatalog_df).*1;
  match getitem pgscatalog_df rsid_column with
  | None => raise (KeyError rsid_column)
  | Some ids => mret (setitem pgscatalog_df "pos_key" (CStr <$> astype_str E ids))
  end.

Definition chrom_question : string :=
  "Which column in PRS file contains the [bold red]chromosome[/bold red]?".
Definition pos_question : string :=
  "Which column in PRS file contains the [bold red]position[/bold red]?".

Definition prep_keys_chrompos (E : Env) (pgscatalog_df : DataFrame)
    (plink_variants_df : list VariantRecord) : M DataFrame :=
  chrom_column ← Prompt_ask chrom_question (columns pgscatalog_df).*1;
  pos_column ← Prompt_ask pos_question (columns pgscatalog_df).*1;
  match getitem pgscatalog_df chrom_column, getitem pgscatalog_df pos_column with
  | Some chrom, Some pos =>
      mret (setitem pgscatalog_df "pos_key"
              (CStr <$> zip_with (λ c p, c ++ ":" ++ p)
                          (astype_str E chrom) (astype_str E pos)))
  | None, _ => raise (KeyError chrom_column)
  | _, None => raise (KeyError pos_column)
  end.

(** The keys of the locus strategy, written row by row. *)
Definition locus_keys (E : Env) (chrom pos : Series) : Series :=
  CStr <$> zip_with (λ c p, str E c ++ ":" ++ str E p) chrom pos.

(** The chromosome-name normalisation the specification speaks of,
    [x[3:] if x.startswith("chr") else x].  The script has it only inside
    the commented-out [input_files_qc] (lines 142-144) and never runs it;
    it is written down here to be compared with what the script does. *)
Definition chrom_cutter (x : string) : string :=
  if String.prefix "chr" x then String.substring 3 (String.length x - 3) x else x.

(** The locus key as the specification describes it. *)
Definition locus_key_normalised (E : Env) (chrom pos : cell) : string :=
  chrom_cutter (str E chrom) ++ ":" ++ str E pos.

(** [set(a).intersection(b)] where [b] holds [str] objects: a [str] equals
    no [int] and no [float], so only the [str] cells of [a] can be shared. *)
Definition shared_keys (a b : Series) : gset string :=
  list_to_set (str_values a) ∩ list_to_set (str_values b).

(** [n > 0.50 * total].  The product is exact in binary64 for every row
    count below 2^53 and Python compares an [int] with a [float] by value,
    so the test is the one on rationals. *)
Definition more_than_half (n total : nat) : bool :=
  negb (Qle_bool (inject_Z (Z.of_nat n)) (0.50 * inject_Z (Z.of_nat total))).

Definition check_the_files_match (pgscatalog_df : DataFrame)
    (plink_variants_df : list VariantRecord) : M bool :=
  match getitem pgscatalog_df "pos_key" with
  | None => raise (KeyError "pos_key")
  | Some pos_key =>
      let amount_of_shared_keys := size (shared_keys (rsid <$> plink_variants_df) pos_key) in
      let amount_of_plink_variants := length plink_variants_df in
      let amount_of_pgscatalog_variants := shape0 pgscatalog_df in
      if more_than_half amount_of_shared_keys amount_of_pgscatalog_variants then
        (* the message divides by the number of PGSCatalog variants *)
        (if decide (amount_of_pgscatalog_variants = 0%nat) then raise ZeroDivisionError
         else emit (MatchReport amount_of_shared_keys amount_of_pgscatalog_variants
                      amount_of_plink_variants));;
        mret true
      else mret false
  end.

(** [s.endswith(suffix)] *)
Definition endswith (s suffix : string) : bool :=
  let n := String.length s in
  let k := String.length suffix in
  bool_decide (k ≤ n)%nat && bool_decide (String.substring (n - k) k s = suffix).

Definition maybe_unpack (E : Env) (prs_wm_text_file : string) : M string :=
  if endswith prs_wm_text_file ".txt.gz" then
    printout "gzipped PGSCatalog file found, unpacking...";;
    process ← subprocess_run E ["gunzip"; prs_wm_text_file];
    when (negb (bool_decide (process.1 = 0)))
      (raise (AssertionError "  ERROR: gunzip crashed"));;
    (* prs_wm_text_file[:-3] *)
    mret (String.substring 0 (String.length prs_wm_text_file - 3) prs_wm_text_file)
  else mret prs_wm_text_file.

Definition load_prs_wm (prs_wm_text_file : string) : M DataFrame :=
  df ← read_table prs_wm_text_file;
  printout ("  " ++ pretty (shape0 df) ++ " SNPs discovered in the PRS weight matrix");;
  when (bool_decide (shape0 df < 1000)%nat)
    (printout "  WARNING: This looks like a more classical GRS! But we will continue anyways");;
  mret df.

(** The dictionary of new names; a later key replaces an equal earlier
    one. *)
Definition annotate_pgscatalog_file (pgscatalog_df : DataFrame) : M (gmap string string) :=
  beta_column ← Prompt_ask
    "Which column in PRS file contains the [bold red]beta[/bold red]?"
    (columns pgscatalog_df).*1;
  effect_allele_column ← Prompt_ask
    "Which column in PRS file contains the [bold red]effect allele[/bold red]?"
    (columns pgscatalog_df).*1;
  mret (<[effect_allele_column := "effect_allele"]>
          (<[beta_column := "effect_weight"]> (∅ : gmap string string))).

Definition load_data (E : Env) (plink_prefix prs_wm_text_file : string)
  : M (DataFrame * list VariantRecord * string) :=
  prs_wm_text_file ← maybe_unpack E prs_wm_text_file;
  let processed_wm_text_file := prs_wm_text_file ++ ".annotated" in
  printout "Loading PGSCatalog data and removing comments and indels...";;
  pgscatalog_df ← load_prs_wm prs_wm_text_file;
  columns ← annotate_pgscatalog_file pgscatalog_df;
  let pgscatalog_df := rename columns pgscatalog_df in
  printout "Loading plink data...";;
  plink_variants_df ← read_bim (plink_prefix ++ ".bim");
  printout ("All data are loaded" ++ String (Ascii.ascii_of_nat 10) "-----------------");;
  mret (pgscatalog_df, plink_variants_df, processed_wm_text_file).

Definition RSID : string := "rsid".
Definition CHROMPOS : string := "pos".

(** The three columns handed to [to_csv], in this order. *)
Definition join_columns (df : DataFrame) : list (string * option Series) :=
  [("pos_key", getitem df "pos_key");
   ("effect_allele", getitem df "effect_allele");
   ("effect_weight", getitem df "effect_weight")].

(** Lines 300-307 of [preprocess_data]: the branch on the operator's
    choice. *)
Definition prepare_keys (E : Env) (how_to_match : string) (pgscatalog_df : DataFrame)
    (plink_variants_df : list VariantRecord) : M DataFrame :=
  if decide (how_to_match = RSID) then
    printout "Trying to match PGSCatalog data with plink data using rsID...";;
    prep_keys_rsid E pgscatalog_df plink_variants_df
  else if decide (how_to_match = CHROMPOS) then
    printout "Trying to match PGSCatalog data with plink data using chromosome and position...";;
    prep_keys_chrompos E pgscatalog_df plink_variants_df
  else raise (RuntimeError "Unreacheble code").

(** Lines 308-315 of [preprocess_data]: the verdict is computed, the join
    file is written, and only then is the verdict acted upon. *)
Definition assess_and_write (pgscatalog_df : DataFrame)
    (plink_variants_df : list VariantRecord) (processed_wm_text_file : string) : M unit :=
  was_match_successful ← check_the_files_match pgscatalog_df plink_variants_df;
  to_csv "" (index pgscatalog_df) (join_columns pgscatalog_df) processed_wm_text_file;;
  when (negb was_match_successful)
    (print_error_misaligned_files;; exit 40).

Definition preprocess_data (E : Env) (pgscatalog_df : DataFrame)
    (plink_variants_df : list VariantRecord) (processed_wm_text_file : string) : M unit :=
  how_to_match ← Prompt_ask
    "Would you prefer matching plink data on existing identifiers (rsid) or create a novel key from chromosome:position pair (pos)?"
    [RSID; CHROMPOS];
  pgscatalog_df ← prepare_keys E how_to_match pgscatalog_df plink_variants_df;
  assess_and_write pgscatalog_df plink_variants_df processed_wm_text_file.

(** The binary64 nearest to 0.95, 0x1.e666666666666p-1. *)
Definition f0_95 : spec_float := S754_finite false 8556839292003942 (-53).

(** [Series.mean()] of an [int64] column: the sum is accumulated in
    binary64, which is exact while the counts are non-negative and add up
    to less than 2^53; of no rows it is [nan]. *)
Definition mean (counts : list Z) : spec_float :=
  if decide (counts = []) then S754_nan
  else SFdiv prec emax (Z2SF (foldr Z.add 0 counts)) (Z2SF (Z.of_nat (length counts))).

(** [r["CNT2"] < 0.95 * avg_snps_used] *)
Definition too_few_snps (avg_snps_used : spec_float) (r : ScoreRecord) : bool :=
  SFltb (Z2SF (CNT2 r)) (SFmul prec emax f0_95 avg_snps_used).

(** [type(c).__name__] *)
Definition type_name (c : cell) : string :=
  match c with
  | CStr _ => "str"
  | CInt _ => "int"
  | CFloat _ => "float"
  end.

(** [sep.join(labels)]: every item must be a [str]; the first that is not
    raises. *)
Definition join (sep : string) (labels : list cell) : M string :=
  match list_find (λ c, type_name c ≠ "str") labels with
  | Some (i, c) =>
      raise (TypeError ("sequence item " ++ pretty i ++ ": expected str instance, "
                          ++ type_name c ++ " found"))
  | None => mret (String.concat sep (str_values labels))
  end.

(** [df.drop(labels)]: every row that carries one of the labels goes. *)
Definition drop_labels (labels : list cell) (df : list ScoreRecord) : list ScoreRecord :=
  filter (λ r, IID r ∉ labels) df.

Definition plink_qc (df : list ScoreRecord) : M (list ScoreRecord) :=
  let avg_snps_used := mean (CNT2 <$> df) in
  let bad_samples := IID <$> filter (λ r, too_few_snps avg_snps_used r = true) df in
  if decide (bad_samples = []) then mret df
  else
    printout "WARNING: The following samples has a lot of missing SNPs (more than 5% of SNPs, available on average in other samples)";;
    printout "They will dropped from the following analysis";;
    names ← join "," bad_samples;
    printout names;;
    mret (drop_labels bad_samples df).

(** The command line of the scorer. *)
Definition plink_command (plink_prefix processed_wm_text_file output_prefix : string)
  : list string :=
  ["plink"; "--bfile"; plink_prefix; "--score"; processed_wm_text_file;
   "1";  (* variant ID column index, 1-based *)
   "2";  (* effect allele column index, 1-based *)
   "3";  (* beta column index, 1-based *)
   "sum"; "header"; "--out"; output_prefix].

Definition calculate_prs (E : Env) (plink_prefix processed_wm_text_file output_prefix : string)
  : M unit :=
  let plink_output_file := output_prefix ++ ".profile" in
  let prs_output_file := output_prefix ++ ".prs" in
  printout "Running plink PRS scoring...";;
  process ← subprocess_run E (plink_command plink_prefix processed_wm_text_file output_prefix);
  found ← isfile plink_output_file;
  when (negb (bool_decide (process.1 = 0)) || negb found)
    (print "ERROR: plink has failed";; print process.2;; exit 20);;
  printout "Parsing plink results...";;
  df ← read_profile plink_output_file;
  df ← plink_qc df;
  to_csv "IID" (IID <$> df) [("SCORESUM", Some (SCORESUM <$> df))] prs_output_file;;
  printout ("PRS is saved to " ++ prs_output_file).

Definition main (E : Env) (args : Args) : M unit :=
  check_input args;;
  match genetic args, prs_wm args, out args with
  | Some plink_prefix, Some prs_wm_text_file, Some output_prefix =>
      '(pgscatalog_df, plink_variants_df, processed_wm_text_file) ←
        load_data E plink_prefix prs_wm_text_file;
      preprocess_data E pgscatalog_df plink_variants_df processed_wm_text_file;;
      calculate_prs E plink_prefix processed_wm_text_file output_prefix
  | _, _, _ =>
      (* not reached: [check_input] has left through [exit] *)
      raise (TypeError "NoneType")
  end.

(** ** The message panel *)

(** [s.split(sep)] for a one-character separator: the pieces between the
    separators, of which there is always at least one. *)
Fixpoint split (sep : Ascii.ascii) (s : string) : list string :=
  match s with
  | EmptyString => [EmptyString]
  | String c s' =>
      if decide (c = sep) then EmptyString :: split sep s'
      else match split sep s' with
           | piece :: pieces => String c piece :: pieces
           | [] => [String c EmptyString]
           end
  end.

Definition newline : Ascii.ascii := Ascii.ascii_of_nat 10.

(** [xs[-n:]], for [0 < n] *)
Definition last_items {A} (n : nat) (xs : list A) : list A :=
  drop (length xs - n) xs.

(** Lines 377-380 of [printout]: the text the main panel shows after
    [text] is printed over [old_text], its last thirty lines. *)
Definition new_text (old_text text : string) : string :=
  let old_lines := split newline old_text in
  let new_lines := split newline text in
  String.concat (String newline EmptyString) (last_items 30 (old_lines ++ new_lines)).

(** ** Column roles from the command line *)

(** The six column options [parse_pgscatalog_wm_columns] reads; the parser
    of the script has them commented out, and [main] does not call the
    function. *)
Record ColumnArgs : Type := {
  effect_allele_col : option string;
  beta_col : option string;
  ref_allele_col : option string;
  rsid_col : option string;
  chrom_col : option string;
  pos_col : option string
}.

(** [if key is not None: columns[key] = role] *)
Definition set_role (key : option string) (role : string)
    (columns : gmap (option string) string) : gmap (option string) string :=
  match key with
  | Some _ => <[key := role]> columns
  | None => columns
  end.

(** The dictionary from column name to role; a Python dictionary takes
    [None] as a key like any other, and a later entry replaces an earlier
    one under the same key. *)
Definition parse_pgscatalog_wm_columns (args : ColumnArgs) : gmap (option string) string :=
  let columns :=
    <[beta_col args := "effect_weight"]>
      (<[effect_allele_col args := "effect_allele"]> ∅) in
  let columns := set_role (ref_allele_col args) "reference_allele" columns in
  let columns := set_role (rsid_col args) "rsID" columns in
  let columns := set_role (chrom_col args) "chr_name" columns in
  set_role (pos_col args) "chr_position" columns.

(** ** The fatal conditions *)



(** ** What a computation may do *)

(** An event other than a run of the scorer. *)
Definition not_plink (ev : Event) : Prop := ∀ argv, ev ≠ Run ("plink" :: argv).

Definition any_event (ev : Event) : Prop := True.

(** [tame ok codes m]: [m] only adds events to the trace, each of them
    [ok], and leaves through [exit] with one of [codes] only. *)
Definition tame {A} (ok : Event → Prop) (codes : list Z) (m : M A) : Prop :=
  ∀ w out w', m w = (out, w') →
    (∃ new : list Event, trace w' = (trace w ++ new)%list ∧ Forall ok new) ∧
    (∀ status, out = Exit status → status ∈ codes).

(** ** Concrete tables and runs *)

(** A weight matrix of ten variants on chromosome 1, at positions 100,
    200, ..., 1000, under the PGS Catalog column names. *)
Definition ten_positions : list Z := (λ i, 100 * Z.of_nat i) <$> seq 1 10.

Definition ten_weights : DataFrame :=
  {| index := (λ i, CInt (Z.of_nat i)) <$> seq 0 10;
     columns :=
       [("chr_name", (λ _, CInt 1) <$> ten_positions);
        ("chr_position", CInt <$> ten_positions);
        ("effect_allele", (λ _, CStr "T") <$> ten_positions);
        ("effect_weight", (λ p, CFloat (Z2SF p)) <$> ten_positions)] |}.

(** The same table once keyed by locus. *)
Definition ten_weights_keyed : DataFrame :=
  setitem ten_weights "pos_key" ((λ p, CStr ("1:" ++ pretty p)) <$> ten_positions).

Definition variant (id : string) : VariantRecord :=
  {| chr_name := CInt 1; rsid := CStr id; chr_position := CInt 0;
     base_allele := CStr "T"; alternative_allele := CStr "G" |}.

(** A panel of twelve variants, six of them named by a locus of the weight
    matrix, and a panel that shares three. *)
Definition panel_six_shared : list VariantRecord :=
  variant <$> ["1:100"; "1:200"; "1:300"; "1:400"; "1:500"; "1:600";
               "rs1"; "rs2"; "rs3"; "rs4"; "rs5"; "rs6"].

Definition panel_three_shared : list VariantRecord :=
  variant <$> ["1:100"; "1:200"; "1:300"; "rs1"; "rs2"; "rs3"; "rs4"].

(** A panel that shares exactly half of the ten loci, one of them listed
    twice. *)
Definition panel_five_shared : list VariantRecord :=
  variant <$> ["1:100"; "1:200"; "1:300"; "1:400"; "1:500"; "1:500"; "rs1"].

(** A panel that names the locus 1:100 without the "chr" prefix. *)
Definition panel_plain_locus : list VariantRecord := variant <$> ["1:100"].

(** A panel without annotation, and one with a single named variant. *)
Definition panel_unannotated : list VariantRecord := variant <$> ["."; "."; "."].
Definition panel_one_named : list VariantRecord := variant <$> ["."; "."; "rs7"; "."].

(** An empty weight matrix with its key column. *)
Definition no_weights_keyed : DataFrame :=
  {| index := [];
     columns := [("effect_allele", []); ("effect_weight", []); ("pos_key", [])] |}.

(** A weight matrix that names its chromosome with the "chr" prefix. *)
Definition chr_prefixed_weights : DataFrame :=
  {| index := [CInt 0];
     columns :=
       [("chr_name", [CStr "chr1"]); ("chr_position", [CInt 100]);
        ("effect_allele", [CStr "T"]); ("effect_weight", [CFloat (Z2SF 12345)])] |}.

(** A keyed weight matrix of one variant, of weight 12345.0. *)
Definition one_weight_keyed : DataFrame :=
  setitem chr_prefixed_weights "pos_key" [CStr "chr1:100"].

(** Score tables: the samples of the worked example, and the same counts
    under numeric sample identifiers. *)
Definition score (iid : cell) (cnt2 : Z) : ScoreRecord :=
  {| IID := iid; CNT2 := cnt2; SCORESUM := CFloat (Z2SF cnt2) |}.

Definition scores_named : list ScoreRecord :=
  [score (CStr "S1") 100; score (CStr "S2") 100; score (CStr "S3") 40].

Definition scores_numbered : list ScoreRecord :=
  [score (CInt 1) 100; score (CInt 2) 100; score (CInt 3) 40].

(** An environment in which [plink] fails and leaves nothing behind.  The
    runs below put no float in a key column, so how [str] writes one does
    not matter to them. *)
Definition plink_fails : Env :=
  {| subprocess := λ argv fs, (1, "Error: out of memory", fs);
     float_str := format_e 16 |}.

(** An environment in which [plink] scores the three named samples. *)
Definition plink_scores : Env :=
  {| subprocess := λ argv fs,
       match argv !! 11%nat with
       | Some prefix => (0, "", <[prefix ++ ".profile" := Profile scores_named]> fs)
       | None => (0, "", fs)
       end;
     float_str := format_e 16 |}.

(** A full command line, and the files it names. *)
Definition full_args : Args :=
  {| genetic := Some "data/panel"; prs_wm := Some "PGS000001.txt"; out := Some "out/score" |}.

Definition disk (panel : list VariantRecord) (weights : DataFrame) : gmap string File :=
  list_to_map
    [("data/panel.bed", Opaque); ("data/panel.bim", Bim panel); ("data/panel.fam", Opaque);
     ("PGS000001.txt", Table weights)].

(** The operator names the weight and allele columns, then asks for locus
    keys and names the chromosome and position columns. *)
Definition locus_answers : list string :=
  ["effect_weight"; "effect_allele"; "pos"; "chr_name"; "chr_position"].

Definition world (answers : list string) (fs : gmap string File) : World :=
  {| stdin := answers; files := fs; trace := [] |}.

(** ** What a computation leaves alone *)

(** What [check_input] may add to the trace: lines and the help text. *)
Definition printed (ev : Event) : Prop :=
  match ev with
  | Print _ | PrintHelp => True
  | _ => False
  end.

(** [preserves R m]: the world after [m] is related by [R] to the world
    before, however [m] ends. *)
Definition preserves {A} (R : World → World → Prop) (m : M A) : Prop :=
  ∀ w out w', m w = (out, w') → R w w'.

Definition same_files (w w' : World) : Prop := files w' = files w.
Definition same_world (w w' : World) : Prop := stdin w' = stdin w ∧ files w' = files w.

(** The file at [path] is what it was. *)
Definition same_file (path : string) (w w' : World) : Prop :=
  files w' !! path = files w !! path.

(** The relations [preserves] composes along: reflexive, transitive, and
    blind to the trace. *)
Class Steady (R : World → World → Prop) : Prop := {
  steady_refl : ∀ w, R w w;
  steady_trans : ∀ w1 w2 w3, R w1 w2 → R w2 w3 → R w1 w3;
  steady_logged : ∀ w events, R w (logged w events)
}.

(** A weight matrix under column names of its own. *)
Definition weights_other_names : DataFrame :=
  {| index := (λ i, CInt (Z.of_nat i)) <$> seq 0 10;
     columns :=
       [("CHR", (λ _, CInt 1) <$> ten_positions);
        ("POS", CInt <$> ten_positions);
        ("A1", (λ _, CStr "A") <$> ten_positions);
        ("BETA", (λ _, CFloat (Z2SF 1)) <$> ten_positions)] |}.

(** A keyed weight matrix that lists each of two loci once per allele. *)
Definition repeated_weights_keyed : DataFrame :=
  {| index := CInt <$> [0; 1; 2; 3];
     columns :=
       [("effect_allele", CStr <$> ["A"; "C"; "G"; "T"]);
        ("effect_weight", (λ _, CFloat (Z2SF 1)) <$> seq 0 4);
        ("pos_key", CStr <$> ["1:100"; "1:100"; "1:200"; "1:200"])] |}.

(** A panel whose variant identifiers are numbers, as [read_table] parses
    a column of digits. *)
Definition numbered_variant (id : Z) : VariantRecord :=
  {| chr_name := CInt 1; rsid := CInt id; chr_position := CInt 0;
     base_allele := CStr "T"; alternative_allele := CStr "G" |}.

Definition panel_numbered : list VariantRecord := numbered_variant <$> [100; 200; 300].

(** A weight matrix keyed by the same numbers, written out. *)
Definition numbered_weights_keyed : DataFrame :=
  {| index := CInt <$> [0; 1; 2];
     columns :=
       [("effect_allele", CStr <$> ["A"; "C"; "G"]);
        ("effect_weight", (λ _, CFloat (Z2SF 1)) <$> seq 0 3);
        ("pos_key", CStr <$> ["100"; "200"; "300"])] |}.

(** ** How the process ends *)

(** The status the process ends with.  The script calls [main] at the top
    level with no handler (lines 422-423): when [main] returns the status
    is 0, [exit(status)] gives its argument, and an exception nobody
    catches makes the interpreter print the traceback and end with
    status 1. *)
Definition process_status {A} (o : Outcome A) : Z :=
  match o with
  | Return _ => 0
  | Exit status => status
  | Raise _ => 1
  end.

Global Instance printed_dec ev : Decision (printed ev).
Proof. destruct ev; simpl; apply _. Defined.

(** A program was run. *)
Definition ran (ev : Event) : Prop :=
  match ev with
  | Run _ => True
  | _ => False
  end.

Global Instance ran_dec ev : Decision (ran ev).
Proof. destruct ev; simpl; apply _. Defined.

(** The operator names the weight and the effect-allele column of
    [weights_other_names], asks for locus keys and names the chromosome
    and position columns. *)
Definition other_names_answers : list string := ["BETA"; "A1"; "pos"; "CHR"; "POS"].

(** [weights_other_names] once keyed by locus. *)
Definition other_names_keyed : DataFrame :=
  setitem weights_other_names "pos_key" ((λ p, CStr ("1:" ++ pretty p)) <$> ten_positions).





(** * Properties *)

(** ** Columns and keys *)

Lemma get_column_elem name cols s :
  get_column name cols = Some s → (name, s) ∈ cols.
Proof.
  induction cols as [|[n c] cols IH]; simpl; [done|].
  case_decide; simpl in *.
  - intros [= <-]. subst. left.
  - intros H'. right. auto.
Qed.

Lemma wf_column_length df name s :
  wf df → getitem df name = Some s → length s = shape0 df.
Proof.
  intros Hwf Hget. apply get_column_elem in Hget.
  unfold wf in Hwf. rewrite Forall_forall in Hwf.
  by apply (Hwf (name, s)).
Qed.

Lemma size_list_to_set_le (l : list string) :
  (size (list_to_set l : gset string) ≤ length l)%nat.
Proof.
  induction l as [|x l IH].
  - rewrite list_to_set_nil, size_empty. done.
  - rewrite list_to_set_cons, size_union_alt, size_singleton. simpl.
    assert (Hsub : list_to_set l ∖ {[x]} ⊆ (list_to_set l : gset string))
      by (by apply subseteq_difference_l).
    apply subseteq_size in Hsub. lia.
Qed.

Lemma length_str_values (s : Series) : (length (str_values s) ≤ length s)%nat.
Proof.
  induction s as [|[x|z|f] s IH]; simpl; lia.
Qed.

Lemma shared_keys_le a b : (size (shared_keys a b) ≤ length b)%nat.
Proof.
  unfold shared_keys.
  etrans; [apply subseteq_size, intersection_subseteq_r|].
  etrans; [apply size_list_to_set_le|apply length_str_values].
Qed.

Lemma elem_of_str_values (s : Series) x : x ∈ str_values s ↔ CStr x ∈ s.
Proof.
  unfold str_values. rewrite list_elem_of_omap. split.
  - intros ([y|z|f] & Hin & Heq); simplify_eq. done.
  - intros Hin. exists (CStr x). done.
Qed.

Lemma elem_of_shared_keys a b x :
  x ∈ shared_keys a b ↔ CStr x ∈ a ∧ CStr x ∈ b.
Proof.
  unfold shared_keys.
  by rewrite elem_of_intersection, !elem_of_list_to_set, !elem_of_str_values.
Qed.

Lemma more_than_half_spec n total :
  more_than_half n total = true ↔ (total < 2 * n)%nat.
Proof.
  unfold more_than_half. rewrite negb_true_iff, <- not_true_iff_false, Qle_bool_iff.
  unfold Qle, Qmult, inject_Z. simpl. lia.
Qed.

(** ** The concordance verdict *)

Lemma logged_nil w : logged w [] = w.
Proof. destruct w. unfold logged. simpl. by rewrite app_nil_r. Qed.

Lemma logged_logged w xs ys : logged (logged w xs) ys = logged w (xs ++ ys).
Proof. unfold logged. simpl. by rewrite app_assoc. Qed.

(** What [check_the_files_match] does on a keyed table. *)
Lemma check_the_files_match_run df plink pos_key w :
  wf df → getitem df "pos_key" = Some pos_key →
  let n := size (shared_keys (rsid <$> plink) pos_key) in
  check_the_files_match df plink w =
    if more_than_half n (shape0 df)
    then (Return true, logged w [MatchReport n (shape0 df) (length plink)])
    else (Return false, w).
Proof.
  intros Hwf Hget n. unfold check_the_files_match. rewrite Hget. fold n.
  destruct (more_than_half n (shape0 df)) eqn:Hhalf; [|done].
  apply more_than_half_spec in Hhalf.
  pose proof (shared_keys_le (rsid <$> plink) pos_key) as Hle. fold n in Hle.
  rewrite (wf_column_length df _ _ Hwf Hget) in Hle.
  case_decide; [lia|done].
Qed.

(** C1. On a keyed weight table the verdict is "accepted" exactly when the
    number of distinct keys found on both sides is more than half the
    number of weight rows; at exactly half, and below, it is "rejected".
    The shared keys form a set: a key counts once however often it
    occurs. *)
Theorem check_the_files_match_verdict df plink pos_key w :
  wf df → getitem df "pos_key" = Some pos_key →
  let shared := shared_keys (rsid <$> plink) pos_key in
  (∀ x, x ∈ shared ↔ CStr x ∈ rsid <$> plink ∧ CStr x ∈ pos_key) ∧
  ((check_the_files_match df plink w).1 = Return true ↔ (shape0 df < 2 * size shared)%nat) ∧
  ((check_the_files_match df plink w).1 = Return false ↔ (2 * size shared ≤ shape0 df)%nat).
Proof.
  intros Hwf Hget shared. split; [apply elem_of_shared_keys|].
  rewrite (check_the_files_match_run df plink pos_key w Hwf Hget). fold shared.
  destruct (more_than_half (size shared) (shape0 df)) eqn:Hhalf; simpl.
  - apply more_than_half_spec in Hhalf. split; split; (done || lia).
  - assert (¬ (shape0 df < 2 * size shared)%nat) as Hnot.
    { intros Hlt. apply more_than_half_spec in Hlt. congruence. }
    split; split; (done || lia).
Qed.

Lemma check_the_files_match_verdict_witness :
  (check_the_files_match ten_weights_keyed panel_six_shared (world [] ∅)).1 = Return true
  ∧ (check_the_files_match ten_weights_keyed panel_five_shared (world [] ∅)).1 = Return false
  ∧ (check_the_files_match ten_weights_keyed panel_three_shared (world [] ∅)).1 = Return false.
Proof.
  assert (Hwf : wf ten_weights_keyed) by (unfold wf; simpl; repeat constructor).
  split; [|split].
  - apply (check_the_files_match_verdict ten_weights_keyed panel_six_shared _
             (world [] ∅) Hwf eq_refl).
    vm_compute. lia.
  - apply (check_the_files_match_verdict ten_weights_keyed panel_five_shared _
             (world [] ∅) Hwf eq_refl).
    vm_compute. lia.
  - apply (check_the_files_match_verdict ten_weights_keyed panel_three_shared _
             (world [] ∅) Hwf eq_refl).
    vm_compute. lia.
Defined.

(** C9. For a weight table without rows the verdict is "rejected": nothing
    is shared, and nothing is not more than half of nothing.  The ratio,
    which is only formed for the message of an accepted match, is never
    formed with a zero denominator. *)
Theorem check_the_files_match_no_rows df plink w :
  wf df → shape0 df = 0%nat →
  (∀ pos_key, getitem df "pos_key" = Some pos_key →
     check_the_files_match df plink w = (Return false, w)) ∧
  (check_the_files_match df plink w).1 ≠ Return true ∧
  (check_the_files_match df plink w).1 ≠ Raise ZeroDivisionError.
Proof.
  intros Hwf Hrows.
  assert (Hrej : ∀ pos_key, getitem df "pos_key" = Some pos_key →
     check_the_files_match df plink w = (Return false, w)).
  { intros pos_key Hget. rewrite (check_the_files_match_run df plink pos_key w Hwf Hget).
    destruct (more_than_half _ _) eqn:Hhalf; [|done].
    apply more_than_half_spec in Hhalf.
    pose proof (shared_keys_le (rsid <$> plink) pos_key) as Hle.
    rewrite (wf_column_length df _ _ Hwf Hget) in Hle. lia. }
  split; [done|].
  destruct (getitem df "pos_key") as [pos_key|] eqn:Hget.
  - rewrite (Hrej pos_key eq_refl). done.
  - unfold check_the_files_match. rewrite Hget. done.
Qed.

Lemma check_the_files_match_no_rows_witness :
  check_the_files_match no_weights_keyed panel_six_shared (world [] ∅)
  = (Return false, world [] ∅).
Proof.
  assert (Hwf : wf no_weights_keyed) by (unfold wf; simpl; repeat constructor).
  exact (proj1 (check_the_files_match_no_rows no_weights_keyed panel_six_shared
                  (world [] ∅) Hwf eq_refl) [] eq_refl).
Defined.

(** ** Running the monad *)

Lemma bind_run {A B} (m : M A) (f : A → M B) w :
  (m ≫= f) w =
    match m w with
    | (Return a, w') => f a w'
    | (Exit status, w') => (Exit status, w')
    | (Raise e, w') => (Raise e, w')
    end.
Proof. reflexivity. Qed.

Lemma bind_Return {A B} (m : M A) (f : A → M B) w a w' :
  m w = (Return a, w') → (m ≫= f) w = f a w'.
Proof. intros H. by rewrite bind_run, H. Qed.

Lemma bind_Exit {A B} (m : M A) (f : A → M B) w status w' :
  m w = (Exit status, w') → (m ≫= f) w = (Exit status, w').
Proof. intros H. by rewrite bind_run, H. Qed.

Lemma bind_Raise {A B} (m : M A) (f : A → M B) w e w' :
  m w = (Raise e, w') → (m ≫= f) w = (Raise e, w').
Proof. intros H. by rewrite bind_run, H. Qed.

Lemma for_each_emit {A} (event : A → Event) xs w :
  for_each xs (λ x, emit (event x)) w = (Return tt, logged w (event <$> xs)).
Proof.
  revert w. induction xs as [|x xs IH]; intros w; simpl.
  - by rewrite logged_nil.
  - rewrite bind_run. unfold emit at 1. rewrite IH, logged_logged. done.
Qed.

Lemma print_error_misaligned_files_run w :
  print_error_misaligned_files w
  = (Return tt, logged w (Print <$> misaligned_files_message)).
Proof. apply (for_each_emit Print). Qed.

Lemma print_non_annotated_plink_file_error_run w :
  print_non_annotated_plink_file_error w
  = (Return tt, logged w (Printout <$> non_annotated_plink_file_message)).
Proof. apply (for_each_emit Printout). Qed.

(** ** The identifier strategy *)

Lemma elem_of_unique (s : Series) c : c ∈ unique s ↔ c ∈ s.
Proof.
  induction s as [|d s IH]; simpl; [done|].
  rewrite !elem_of_cons, list_elem_of_filter, IH.
  destruct (decide (c = d)); tauto.
Qed.

Lemma unique_constant (s : Series) c :
  s ≠ [] → Forall (λ d, d = c) s → unique s = [c].
Proof.
  induction s as [|d s IH]; [done|].
  intros _ Hall. apply Forall_cons in Hall as [-> Hall]. simpl.
  destruct s as [|d' s]; [done|].
  rewrite IH by done. rewrite filter_cons_False by (intros H; by apply H). done.
Qed.

Lemma head_unique (s : Series) : head (unique s) = head s.
Proof. by destruct s. Qed.

(** The QC test holds of a panel whose every identifier is ["."] ... *)
Lemma no_variant_ids_all_dots (ids : Series) :
  ids ≠ [] → Forall (λ c, c = CStr ".") ids → no_variant_ids ids = true.
Proof.
  intros Hne Hall. unfold no_variant_ids, nunique.
  assert (Hkeep : filter (λ c, isna c = false) ids = ids).
  { clear Hne. induction Hall as [|c ids -> _ IH]; [done|].
    rewrite filter_cons_True by done. by rewrite IH. }
  rewrite Hkeep, head_unique, (unique_constant ids (CStr ".")) by done.
  destruct ids as [|c ids]; [done|].
  apply Forall_cons in Hall as [-> _]. done.
Qed.

(** ... and only of a panel whose identifiers, the missing ones apart, are
    all ["."]. *)
Lemma no_variant_ids_inv (ids : Series) :
  no_variant_ids ids = true →
  nunique ids = 1%nat ∧ CStr "." ∈ ids ∧ ∀ c, c ∈ ids → isna c = false → c = CStr ".".
Proof.
  unfold no_variant_ids. rewrite andb_true_iff, !bool_decide_eq_true.
  intros [Hone Hhead]. split; [done|].
  rewrite head_unique in Hhead.
  assert (Hdot : CStr "." ∈ ids).
  { destruct ids as [|c ids]; simplify_eq/=. left. }
  split; [done|]. intros c Hin Hna.
  unfold nunique in Hone.
  destruct (unique (filter (λ c, isna c = false) ids)) as [|d [|? ?]] eqn:Huniq;
    simplify_eq/=.
  assert (Hmem : ∀ x, x ∈ ids → isna x = false → x = d).
  { intros x Hx Hxna.
    assert (x ∈ unique (filter (λ c, isna c = false) ids)) as Hxin
      by (by apply elem_of_unique, list_elem_of_filter).
    rewrite Huniq in Hxin. by apply list_elem_of_singleton in Hxin. }
  rewrite (Hmem c Hin Hna). symmetry. by apply Hmem.
Qed.

Lemma first_choice_elem choices answers a rest :
  first_choice choices answers = Some (a, rest) → a ∈ choices.
Proof.
  induction answers as [|b answers IH]; simpl; [done|].
  case_decide; [|done]. by intros [= <- _].
Qed.

(** An answer is taken without the white space typed around it. *)
Lemma first_choice_strips :
  first_choice [RSID; CHROMPOS] [" pos "; "rsid"] = Some ("pos", ["rsid"]) ∧
  first_choice [RSID; CHROMPOS] ["rs id"; ""; "rsid "] = Some ("rsid", []).
Proof. split; vm_compute; reflexivity. Qed.

Lemma get_column_is_Some name cols :
  name ∈ cols.*1 → is_Some (get_column name cols).
Proof.
  induction cols as [|[n c] cols IH]; simpl.
  - by intros ?%elem_of_nil.
  - intros Hin. case_decide; [by eexists|].
    apply elem_of_cons in Hin as [->|Hin]; [done|auto].
Qed.

Lemma Prompt_ask_run question choices w a rest :
  first_choice choices (stdin w) = Some (a, rest) →
  Prompt_ask question choices w
  = (Return a, {| stdin := rest; files := files w;
                  trace := trace w ++ [Ask question choices] |}).
Proof. intros H. unfold Prompt_ask. by rewrite H. Qed.

Lemma prep_keys_rsid_stops E df plink w :
  no_variant_ids (rsid <$> plink) = true →
  prep_keys_rsid E df plink w
  = (Exit 30, logged w (Printout <$> non_annotated_plink_file_message)).
Proof.
  intros H. unfold prep_keys_rsid. rewrite H. simpl.
  rewrite !bind_run, print_non_annotated_plink_file_error_run. done.
Qed.

Lemma prep_keys_rsid_proceeds E df plink w column rest :
  no_variant_ids (rsid <$> plink) = false →
  first_choice (columns df).*1 (stdin w) = Some (column, rest) →
  ∃ ids, getitem df column = Some ids ∧
    prep_keys_rsid E df plink w
    = (Return (setitem df "pos_key" (CStr <$> astype_str E ids)),
       {| stdin := rest; files := files w;
          trace := trace w ++ [Ask rsid_question (columns df).*1] |}).
Proof.
  intros H Hans. unfold prep_keys_rsid. rewrite H. simpl.
  destruct (get_column_is_Some column (columns df)) as [ids Hids];
    [by eapply first_choice_elem|].
  exists ids. split; [done|].
  rewrite bind_run. simpl. rewrite bind_run, (Prompt_ask_run _ _ _ _ _ Hans).
  unfold getitem. rewrite Hids. done.
Qed.

(** C4. A panel whose every record carries the identifier ["."] stops the
    identifier strategy at once: the diagnostic is shown, nine lines that
    say that the plink data have no variant identifiers and that the data
    must be annotated, and the process leaves with status 30.  Nothing
    else happens: no further question is asked, no key is derived from
    chromosome and position, no file is written. *)
Theorem prep_keys_rsid_fails_fast E pgscatalog_df plink_variants_df path w :
  plink_variants_df ≠ [] →
  (∀ r, r ∈ plink_variants_df → rsid r = CStr ".") →
  let diagnostic :=
    [Printout "ERROR: Your plink data have no variants IDs at all.";
     Printout "ERROR: Ask your data supplier (probably the phenomics platform) to annotate it using dbSNP,";
     Printout "ERROR: or at least assign the dummy 'chrom:pos' ids to the SNPs, if you know what you are doing.";
     Printout "ERROR: This script do *not* need *dbSNP* variant IDs, but it *does* need *some* IDs.";
     Printout "---";
     Printout "P.S. We do *not* recommend using any kind of non-dbSNP ids,";
     Printout " because your colleagues' scripts may, unfortunately, rely on dbSNP annotation.";
     Printout " If you are ok with having 'chrom:pos' encoding and you think that you know what you are doing,";
     Printout " then you must be able to construct the annotation command using bash 'cut' and 'paste' yourself."] in
  prep_keys_rsid E pgscatalog_df plink_variants_df w
  = (Exit 30, {| stdin := stdin w; files := files w;
                 trace := trace w ++ diagnostic |}) ∧
  ∀ rest, first_choice [RSID; CHROMPOS] (stdin w) = Some (RSID, rest) →
    ∃ question,
      preprocess_data E pgscatalog_df plink_variants_df path w
      = (Exit 30,
         {| stdin := rest; files := files w;
            trace := trace w ++
              [Ask question [RSID; CHROMPOS];
               Printout "Trying to match PGSCatalog data with plink data using rsID..."] ++
              diagnostic |}).
Proof.
  intros Hne Hall diagnostic.
  assert (Hqc : no_variant_ids (rsid <$> plink_variants_df) = true).
  { apply no_variant_ids_all_dots.
    - by destruct plink_variants_df.
    - apply Forall_fmap, Forall_forall. intros r Hr. by apply Hall. }
  split.
  - rewrite prep_keys_rsid_stops by done. reflexivity.
  - intros rest Hans. eexists. unfold preprocess_data.
    rewrite (bind_Return _ _ _ _ _ (Prompt_ask_run _ _ _ _ _ Hans)).
    erewrite bind_Exit; [done|].
    unfold prepare_keys. destruct (decide (RSID = RSID)); [|done].
    erewrite bind_Return by done.
    rewrite prep_keys_rsid_stops by done.
    unfold logged. simpl. rewrite <- !app_assoc. reflexivity.
Qed.

Lemma prep_keys_rsid_fails_fast_witness :
  (prep_keys_rsid plink_fails ten_weights panel_unannotated (world ["rsid"] ∅)).1 = Exit 30.
Proof.
  assert (H : ∀ r, r ∈ panel_unannotated → rsid r = CStr ".").
  { intros r Hr. unfold panel_unannotated in Hr.
    apply list_elem_of_fmap in Hr as (id & -> & Hid).
    repeat (apply elem_of_cons in Hid as [->|Hid]; [done|]).
    by apply elem_of_nil in Hid. }
  by rewrite (proj1 (prep_keys_rsid_fails_fast plink_fails ten_weights panel_unannotated
                       "PGS000001.txt.annotated" (world ["rsid"] ∅) ltac:(done) H)).
Defined.

(** C10. The identifier strategy is stopped only by a panel that holds a
    single distinct identifier, and that identifier is ["."].  A panel with
    any other identifier, however many records carry ["."], is not stopped:
    the operator is asked for the rsID column and the keyed table comes
    back.  (A missing value is not an identifier: [nunique] does not count
    it.) *)
Theorem prep_keys_rsid_stops_only_unannotated E pgscatalog_df plink_variants_df w :
  let ids := rsid <$> plink_variants_df in
  ((prep_keys_rsid E pgscatalog_df plink_variants_df w).1 = Exit 30 →
     nunique ids = 1%nat ∧ CStr "." ∈ ids ∧
     ∀ c, c ∈ ids → isna c = false → c = CStr ".") ∧
  ((∃ c, c ∈ ids ∧ isna c = false ∧ c ≠ CStr ".") →
     ∀ column rest,
       first_choice (columns pgscatalog_df).*1 (stdin w) = Some (column, rest) →
       ∃ keys, getitem pgscatalog_df column = Some keys ∧
         prep_keys_rsid E pgscatalog_df plink_variants_df w
         = (Return (setitem pgscatalog_df "pos_key" (CStr <$> astype_str E keys)),
            {| stdin := rest; files := files w;
               trace := trace w ++ [Ask rsid_question (columns pgscatalog_df).*1] |})).
Proof.
  intros ids. split.
  - destruct (no_variant_ids ids) eqn:Hqc; [intros _; by apply no_variant_ids_inv|].
    unfold prep_keys_rsid. fold ids. rewrite Hqc. simpl. rewrite bind_run. simpl.
    rewrite bind_run. unfold Prompt_ask.
    destruct (first_choice _ _) as [[column rest]|]; [|done].
    destruct (getitem pgscatalog_df column); done.
  - intros (c & Hin & Hna & Hne) column rest Hans.
    apply prep_keys_rsid_proceeds; [|done].
    destruct (no_variant_ids (rsid <$> plink_variants_df)) eqn:Hqc; [|done].
    apply no_variant_ids_inv in Hqc as (_ & _ & Hall).
    destruct Hne. by apply Hall.
Qed.

Lemma prep_keys_rsid_stops_only_unannotated_witness :
  ∃ keyed w',
    prep_keys_rsid plink_fails ten_weights panel_one_named (world ["chr_position"] ∅)
    = (Return keyed, w').
Proof.
  destruct (proj2 (prep_keys_rsid_stops_only_unannotated plink_fails ten_weights
                     panel_one_named (world ["chr_position"] ∅))
              ltac:(exists (CStr "rs7"); split; [simpl; repeat constructor|done])
              "chr_position" [] eq_refl) as (keys & _ & ->).
  by eexists _, _.
Defined.

(** ** The locus strategy *)

Lemma take_rows_fmap {A B} (f : A → B) rows (l : list A) :
  take_rows rows (f <$> l) = f <$> take_rows rows l.
Proof.
  unfold take_rows. induction rows as [|i rows IH]; csimpl; [done|].
  rewrite list_lookup_fmap, IH. by destruct (l !! i).
Qed.

Lemma take_rows_zip_with {A B C} (f : A → B → C) rows (a : list A) (b : list B) :
  length a = length b →
  take_rows rows (zip_with f a b) = zip_with f (take_rows rows a) (take_rows rows b).
Proof.
  intros Hlen. unfold take_rows. induction rows as [|i rows IH]; csimpl; [done|].
  rewrite lookup_zip_with, IH.
  destruct (a !! i) as [x|] eqn:Ha, (b !! i) as [y|] eqn:Hb; simpl; try done.
  - apply lookup_lt_Some in Ha. apply lookup_ge_None in Hb. lia.
  - apply lookup_lt_Some in Hb. apply lookup_ge_None in Ha. lia.
Qed.

Lemma get_column_iloc name rows cols :
  get_column name ((λ c, (c.1, take_rows rows c.2)) <$> cols)
  = take_rows rows <$> get_column name cols.
Proof.
  induction cols as [|[n c] cols IH]; csimpl; [done|].
  by case_decide.
Qed.

Lemma set_column_iloc name rows s cols :
  set_column name (take_rows rows s) ((λ c, (c.1, take_rows rows c.2)) <$> cols)
  = (λ c, (c.1, take_rows rows c.2)) <$> set_column name s cols.
Proof.
  induction cols as [|[n c] cols IH]; csimpl; [done|].
  case_decide; csimpl; [done|]. by rewrite IH.
Qed.

Lemma columns_iloc_names df rows : (columns (iloc df rows)).*1 = (columns df).*1.
Proof.
  unfold iloc. simpl. rewrite <- list_fmap_compose. done.
Qed.

Lemma prep_keys_chrompos_run E df plink w chrom_column pos_column rest0 rest chrom pos :
  first_choice (columns df).*1 (stdin w) = Some (chrom_column, rest0) →
  first_choice (columns df).*1 rest0 = Some (pos_column, rest) →
  getitem df chrom_column = Some chrom → getitem df pos_column = Some pos →
  prep_keys_chrompos E df plink w
  = (Return (setitem df "pos_key" (locus_keys E chrom pos)),
     {| stdin := rest; files := files w;
        trace := trace w ++ [Ask chrom_question (columns df).*1;
                             Ask pos_question (columns df).*1] |}).
Proof.
  intros Hc Hp Hchrom Hpos. unfold prep_keys_chrompos.
  rewrite (bind_Return _ _ _ _ _ (Prompt_ask_run _ _ _ _ _ Hc)).
  erewrite bind_Return by (by apply Prompt_ask_run).
  rewrite Hchrom, Hpos. unfold locus_keys, astype_str. simpl.
  rewrite zip_with_fmap_l, zip_with_fmap_r, <- app_assoc. done.
Qed.

(** C2, as the script has it.  The locus key of a row is the chromosome
    cell and the position cell of that row, each written as [str] writes
    it, joined by ":"; so selecting or reordering rows before keying gives
    the keys of the selected rows.  No chromosome name is rewritten: the
    weight side enters the comparison with the chromosome as stored, and
    the panel enters it through its identifier column alone. *)
Theorem prep_keys_chrompos_row_by_row E df plink w
    chrom_column pos_column rest0 rest chrom pos rows :
  wf df →
  first_choice (columns df).*1 (stdin w) = Some (chrom_column, rest0) →
  first_choice (columns df).*1 rest0 = Some (pos_column, rest) →
  getitem df chrom_column = Some chrom → getitem df pos_column = Some pos →
  (prep_keys_chrompos E df plink w).1
    = Return (setitem df "pos_key" (locus_keys E chrom pos)) ∧
  (prep_keys_chrompos E (iloc df rows) plink w).1
    = Return (iloc (setitem df "pos_key" (locus_keys E chrom pos)) rows) ∧
  (∀ keyed panel, rsid <$> panel = rsid <$> plink →
     check_the_files_match keyed panel w = check_the_files_match keyed plink w).
Proof.
  intros Hwf Hc Hp Hchrom Hpos. split; [|split].
  - by erewrite prep_keys_chrompos_run.
  - erewrite prep_keys_chrompos_run; rewrite ?columns_iloc_names; try done.
    + simpl. f_equal. unfold setitem, iloc, locus_keys. simpl. f_equal.
      rewrite <- set_column_iloc. f_equal.
      rewrite take_rows_fmap, take_rows_zip_with; [done|].
      rewrite (wf_column_length df _ _ Hwf Hchrom).
      by rewrite (wf_column_length df _ _ Hwf Hpos).
    + unfold getitem, iloc. simpl. rewrite get_column_iloc.
      unfold getitem in Hchrom. by rewrite Hchrom.
    + unfold getitem, iloc. simpl. rewrite get_column_iloc.
      unfold getitem in Hpos. by rewrite Hpos.
  - intros keyed panel Hsame. unfold check_the_files_match.
    rewrite Hsame. replace (length panel) with (length plink); [done|].
    by rewrite <- (length_fmap rsid plink), <- Hsame, length_fmap.
Qed.

Lemma prep_keys_chrompos_row_by_row_witness :
  (prep_keys_chrompos plink_fails (iloc ten_weights [9; 0; 4]%nat) panel_six_shared
     (world ["chr_name"; "chr_position"] ∅)).1
  = Return (iloc ten_weights_keyed [9; 0; 4]%nat).
Proof.
  assert (Hwf : wf ten_weights) by (unfold wf; simpl; repeat constructor).
  exact (proj1 (proj2 (prep_keys_chrompos_row_by_row plink_fails ten_weights
    panel_six_shared (world ["chr_name"; "chr_position"] ∅)
    "chr_name" "chr_position" ["chr_position"] [] _ _ [9; 0; 4]%nat
    Hwf eq_refl eq_refl eq_refl eq_refl))).
Defined.

(** C2 as the specification words it fails: a chromosome written "chr1"
    is keyed "chr1:100", not "1:100", and so is not found in a panel that
    names the locus "1:100". *)
Lemma prep_keys_chrompos_keeps_chr_prefix :
  let w := world ["chr_name"; "chr_position"] ∅ in
  ∃ keyed w',
    prep_keys_chrompos plink_fails chr_prefixed_weights panel_plain_locus w
      = (Return keyed, w') ∧
    getitem keyed "pos_key" = Some [CStr "chr1:100"] ∧
    getitem keyed "pos_key"
      ≠ Some [CStr (locus_key_normalised plink_fails (CStr "chr1") (CInt 100))] ∧
    (check_the_files_match keyed panel_plain_locus w').1 = Return false ∧
    (check_the_files_match
       (setitem keyed "pos_key"
          [CStr (locus_key_normalised plink_fails (CStr "chr1") (CInt 100))])
       panel_plain_locus w').1 = Return true.
Proof.
  eexists _, _. split; [reflexivity|]. vm_compute. repeat split; congruence.
Qed.

(** ** The join file *)

Lemma string_length_app (s t : string) :
  String.length (s ++ t) = (String.length s + String.length t)%nat.
Proof. induction s as [|c s IH]; simpl; [done|]. by rewrite IH. Qed.

Lemma pretty_digit_length (z : Z) :
  0 ≤ z < 10 → String.length (pretty z) = 1%nat.
Proof.
  intros Hz.
  assert (z = 0 ∨ z = 1 ∨ z = 2 ∨ z = 3 ∨ z = 4 ∨ z = 5 ∨ z = 6 ∨ z = 7 ∨ z = 8 ∨ z = 9)
    as Hcases by lia.
  repeat (destruct Hcases as [->|Hcases]; [reflexivity|]). by subst.
Qed.

Lemma digits_length len q : String.length (digits len q) = len.
Proof.
  revert q. induction len as [|len IH]; intros q; simpl; [done|].
  rewrite string_length_app, IH, pretty_digit_length; [lia|].
  apply Z.mod_pos_bound. lia.
Qed.

(** What "%.4e" writes for a finite number other than zero: a sign, one
    digit, the point, four digits, and the exponent. *)
Lemma format_e_shape p s m e :
  ∃ lead frac k,
    format_e p (S754_finite s m e)
      = (if s then "-" else "") ++ lead ++ "." ++ frac ++ "e" ++ sci_exponent k ∧
    String.length lead = 1%nat ∧ String.length frac = p.
Proof.
  unfold format_e. destruct (sci_round p m e) as [q k].
  eexists _, _, _. split; [reflexivity|].
  split; apply digits_length.
Qed.

Lemma to_csv_join_run df pos_key effect_allele effect_weight path w :
  getitem df "pos_key" = Some pos_key →
  getitem df "effect_allele" = Some effect_allele →
  getitem df "effect_weight" = Some effect_weight →
  to_csv "" (index df) (join_columns df) path w
  = (Return tt,
     logged {| stdin := stdin w;
               files := <[path := Csv (csv_lines "" (index df)
                                         [("pos_key", pos_key);
                                          ("effect_allele", effect_allele);
                                          ("effect_weight", effect_weight)])]> (files w);
               trace := trace w |} [Write path]).
Proof.
  intros Hk Ha Hw. unfold to_csv, join_columns. rewrite Hk, Ha, Hw. done.
Qed.

(** C3, as the script has it.  The file written for a keyed weight table
    holds a header line and then one line per row of the table, in the
    order of the table and with nothing merged or dropped.  Read by column
    name, line [i] carries the join key, the effect allele and the effect
    weight of row [i], and the header names them in that order.  A weight
    that is a finite float other than zero is written by "%.4e": one
    digit, the point and four more digits, five significant digits in
    all. *)
Theorem join_file_rows df pos_key effect_allele effect_weight path w :
  wf df →
  getitem df "pos_key" = Some pos_key →
  getitem df "effect_allele" = Some effect_allele →
  getitem df "effect_weight" = Some effect_weight →
  ∃ header lines,
    files (to_csv "" (index df) (join_columns df) path w).2 !! path
      = Some (Csv (header :: lines)) ∧
    length lines = shape0 df ∧
    ["pos_key"; "effect_allele"; "effect_weight"] `sublist_of` header ∧
    (∀ i line, lines !! i = Some line →
       field header line "pos_key" = csv_field <$> pos_key !! i ∧
       field header line "effect_allele" = csv_field <$> effect_allele !! i ∧
       field header line "effect_weight" = csv_field <$> effect_weight !! i) ∧
    (∀ s m e, CFloat (S754_finite s m e) ∈ effect_weight →
       ∃ lead frac k,
         csv_field (CFloat (S754_finite s m e))
           = (if s then "-" else "") ++ lead ++ "." ++ frac ++ "e" ++ sci_exponent k ∧
         String.length lead = 1%nat ∧ String.length frac = 4%nat).
Proof.
  intros Hwf Hk Ha Hw.
  rewrite (to_csv_join_run df _ _ _ path w Hk Ha Hw). simpl.
  eexists _, _. split; [apply lookup_insert_eq|].
  split; [by rewrite length_imap|].
  split; [by apply sublist_cons|].
  split; [|intros s m e _; apply format_e_shape].
  intros i line Hline.
  rewrite list_lookup_imap in Hline.
  destruct (index df !! i) as [label|] eqn:Hlabel; simplify_eq/=.
  apply lookup_lt_Some in Hlabel.
  destruct (lookup_lt_is_Some_2 pos_key i) as [k Hki];
    [by rewrite (wf_column_length df _ _ Hwf Hk)|].
  destruct (lookup_lt_is_Some_2 effect_allele i) as [a Hai];
    [by rewrite (wf_column_length df _ _ Hwf Ha)|].
  destruct (lookup_lt_is_Some_2 effect_weight i) as [x Hxi];
    [by rewrite (wf_column_length df _ _ Hwf Hw)|].
  rewrite Hki, Hai, Hxi. done.
Qed.

Lemma join_file_rows_witness :
  ∃ header lines,
    files (to_csv "" (index ten_weights_keyed) (join_columns ten_weights_keyed)
             "PGS000001.txt.annotated" (world [] ∅)).2 !! "PGS000001.txt.annotated"
      = Some (Csv (header :: lines)) ∧
    length lines = 10%nat.
Proof.
  assert (Hwf : wf ten_weights_keyed) by (unfold wf; simpl; repeat constructor).
  destruct (join_file_rows ten_weights_keyed _ _ _ "PGS000001.txt.annotated" (world [] ∅)
              Hwf eq_refl eq_refl eq_refl)
    as (header & lines & Hfile & Hlen & _).
  by exists header, lines.
Defined.

(** C3 as the specification words it fails twice on a table of one row:
    the lines written have four fields, the row label coming first, and
    the weight 12345.0 is written with five significant digits. *)
Lemma join_file_four_fields_five_digits :
  let w := (to_csv "" (index one_weight_keyed) (join_columns one_weight_keyed)
              "PGS000001.txt.annotated" (world [] ∅)).2 in
  files w !! "PGS000001.txt.annotated"
    = Some (Csv [[""; "pos_key"; "effect_allele"; "effect_weight"];
                 ["0"; "chr1:100"; "T"; "1.2345e+04"]]) ∧
  ¬ Forall (λ line, length line = 3%nat)
      [[""; "pos_key"; "effect_allele"; "effect_weight"];
       ["0"; "chr1:100"; "T"; "1.2345e+04"]] ∧
  "1.2345e+04" ≠ four_significant_digits (Z2SF 12345).
Proof.
  split; [by vm_compute|]. split.
  - intros H. apply Forall_cons in H as [H _]. simpl in H. lia.
  - vm_compute. congruence.
Qed.

(** ** What a computation can do *)

#[global] Arguments misaligned_files_message : simpl never.
#[global] Arguments non_annotated_plink_file_message : simpl never.

Lemma ret_run {A} (a : A) w : (mret a : M A) w = (Return a, w).
Proof. reflexivity. Qed.

Section Tame.
Context (ok : Event → Prop) (codes : list Z).

Lemma tame_weaken {A} codes' (m : M A) :
  codes' ⊆ codes → tame ok codes' m → tame ok codes m.
Proof.
  intros Hsub Hm w out w' Hrun. destruct (Hm w out w' Hrun) as [Htr Hex].
  split; [done|]. intros status ->. by apply Hsub, Hex.
Qed.

Lemma tame_silent {A} (m : M A) :
  (∀ w, ∃ out, m w = (out, w) ∧ ∀ status, out ≠ Exit status) → tame ok codes m.
Proof.
  intros Hm w out w' Hrun. destruct (Hm w) as (out' & Hrun' & Hne).
  rewrite Hrun' in Hrun. simplify_eq. split.
  - exists []. by rewrite app_nil_r.
  - intros status ->. by destruct (Hne status).
Qed.

Lemma tame_ret {A} (a : A) : tame ok codes (mret a).
Proof. apply tame_silent. intros w. by eexists. Qed.

Lemma tame_raise {A} e : tame ok codes (raise (A:=A) e).
Proof. apply tame_silent. intros w. by eexists. Qed.

Lemma tame_isfile path : tame ok codes (isfile path).
Proof. apply tame_silent. intros w. by eexists. Qed.

Lemma tame_read_table path : tame ok codes (read_table path).
Proof.
  apply tame_silent. intros w. unfold read_table.
  destruct (files w !! path) as [[]|]; by eexists.
Qed.

Lemma tame_read_bim path : tame ok codes (read_bim path).
Proof.
  apply tame_silent. intros w. unfold read_bim.
  destruct (files w !! path) as [[]|]; by eexists.
Qed.

Lemma tame_read_profile path : tame ok codes (read_profile path).
Proof.
  apply tame_silent. intros w. unfold read_profile.
  destruct (files w !! path) as [[]|]; by eexists.
Qed.

Lemma tame_exit {A} status : status ∈ codes → tame ok codes (exit (A:=A) status).
Proof.
  intros Hin w out w' [= <- <-]. split.
  - exists []. by rewrite app_nil_r.
  - by intros ? [= <-].
Qed.

Lemma tame_bind {A B} (m : M A) (f : A → M B) :
  tame ok codes m → (∀ a, tame ok codes (f a)) → tame ok codes (m ≫= f).
Proof.
  intros Hm Hf w out w' Hrun. rewrite bind_run in Hrun.
  destruct (m w) as [[a|status|e] w1] eqn:Hmw;
    destruct (Hm _ _ _ Hmw) as [(new1 & Htr1 & Hq1) Hex1].
  - destruct (Hf a _ _ _ Hrun) as [(new2 & Htr2 & Hq2) Hex2]. split; [|done].
    exists (new1 ++ new2)%list. rewrite Htr2, Htr1, app_assoc. split; [done|].
    by apply Forall_app.
  - simplify_eq. split; [by exists new1|]. intros ? [= <-]. by apply Hex1.
  - simplify_eq. split; [by exists new1|]. done.
Qed.

Lemma tame_emit ev : ok ev → tame ok codes (emit ev).
Proof.
  intros Hev w out w' [= <- <-]. split; [|done].
  exists [ev]. split; [done|]. by apply Forall_singleton.
Qed.

Lemma tame_when cond body : tame ok codes body → tame ok codes (when cond body).
Proof. destruct cond; [done|]. intros _. apply tame_ret. Qed.

Lemma tame_for_each {A} (xs : list A) body :
  (∀ x, tame ok codes (body x)) → tame ok codes (for_each xs body).
Proof.
  intros Hbody. induction xs as [|x xs IH]; simpl; [apply tame_ret|].
  apply tame_bind; [done|]. by intros _.
Qed.

Lemma tame_Prompt_ask question choices :
  ok (Ask question choices) → tame ok codes (Prompt_ask question choices).
Proof.
  intros Hok w out w' Hrun. unfold Prompt_ask in Hrun.
  assert (Hq : Forall ok [Ask question choices]) by (by apply Forall_singleton).
  destruct (first_choice choices (stdin w)) as [[a rest]|]; simplify_eq/=;
    (split; [by eexists|done]).
Qed.

Lemma tame_to_csv index_name idx cols path :
  ok (Write path) → tame ok codes (to_csv index_name idx cols path).
Proof.
  intros Hok w out w' Hrun. unfold to_csv in Hrun.
  destruct (list_find _ cols) as [[? [? ?]]|]; simplify_eq/=.
  - split; [|done]. exists []. by rewrite app_nil_r.
  - split; [|done]. exists [Write path]. split; [done|]. by apply Forall_singleton.
Qed.

Lemma tame_subprocess_run E argv :
  ok (Run argv) → tame ok codes (subprocess_run E argv).
Proof.
  intros Hok w out w' Hrun. unfold subprocess_run in Hrun.
  destruct (subprocess E _ _) as [[rc err] fs]. simplify_eq/=.
  split; [|done]. exists [Run argv]. split; [done|]. by apply Forall_singleton.
Qed.
End Tame.

(** Take a computation apart along its binds; what is left are the events
    it emits and the statuses it exits with. *)
Ltac tame_step :=
  first
    [ apply tame_ret | apply tame_raise | apply tame_isfile
    | apply tame_read_table | apply tame_read_bim | apply tame_read_profile
    | apply tame_bind; [|intros ?]
    | apply tame_when
    | apply tame_for_each; intros ?
    | apply tame_exit; repeat constructor
    | apply tame_emit; first [exact I | intros ?; discriminate]
    | apply tame_Prompt_ask; first [exact I | intros ?; discriminate]
    | apply tame_to_csv; first [exact I | intros ?; discriminate]
    | apply tame_subprocess_run; first [exact I | intros ?; discriminate] ].

Ltac tame_steps := repeat tame_step.

(** A list of statuses is within another. *)
Ltac codes_within :=
  let status := fresh "status" in
  let Hin := fresh "Hin" in
  intros status Hin;
  repeat (apply elem_of_cons in Hin as [->|Hin]; [repeat constructor|]);
  by apply elem_of_nil in Hin.

Lemma tame_check_input args : tame not_plink [1; 2; 3; 4; 5] (check_input args).
Proof.
  unfold check_input, print, print_help.
  destruct (genetic args); [|tame_steps].
  apply tame_bind; [tame_steps|intros _].
  destruct (prs_wm args); tame_steps.
Qed.

Lemma tame_load_data E plink_prefix prs_wm_text_file :
  tame not_plink [] (load_data E plink_prefix prs_wm_text_file).
Proof.
  unfold load_data, maybe_unpack, load_prs_wm, annotate_pgscatalog_file, printout.
  destruct (endswith _ _); tame_steps.
Qed.

Lemma tame_prep_keys_rsid E df plink : tame not_plink [30] (prep_keys_rsid E df plink).
Proof.
  unfold prep_keys_rsid, print_non_annotated_plink_file_error, printout.
  apply tame_bind; [tame_steps|intros _].
  apply tame_bind; [tame_steps|intros column].
  destruct (getitem df column); tame_steps.
Qed.

Lemma tame_prep_keys_chrompos E df plink :
  tame not_plink [30] (prep_keys_chrompos E df plink).
Proof.
  unfold prep_keys_chrompos.
  apply tame_bind; [tame_steps|intros chrom_column].
  apply tame_bind; [tame_steps|intros pos_column].
  destruct (getitem df chrom_column), (getitem df pos_column); tame_steps.
Qed.

Lemma tame_prepare_keys E how df plink :
  tame not_plink [30] (prepare_keys E how df plink).
Proof.
  unfold prepare_keys, printout. case_decide; [|case_decide].
  - apply tame_bind; [tame_steps|intros _; apply tame_prep_keys_rsid].
  - apply tame_bind; [tame_steps|intros _; apply tame_prep_keys_chrompos].
  - apply tame_raise.
Qed.

Lemma tame_check_the_files_match codes df plink :
  tame not_plink codes (check_the_files_match df plink).
Proof.
  unfold check_the_files_match.
  destruct (getitem df "pos_key"); [|apply tame_raise].
  destruct (more_than_half _ _); [|apply tame_ret].
  apply tame_bind; [|intros _; apply tame_ret].
  case_decide; tame_steps.
Qed.

Lemma tame_assess_and_write df plink path :
  tame not_plink [40] (assess_and_write df plink path).
Proof.
  unfold assess_and_write, print_error_misaligned_files, print.
  apply tame_bind; [apply tame_check_the_files_match|intros ok].
  tame_steps.
Qed.

Lemma tame_preprocess_data E df plink path :
  tame not_plink [30; 40] (preprocess_data E df plink path).
Proof.
  unfold preprocess_data.
  apply tame_bind; [tame_steps|intros how].
  apply tame_bind; [|intros keyed].
  - eapply tame_weaken; [|apply tame_prepare_keys]. codes_within.
  - eapply tame_weaken; [|apply tame_assess_and_write]. codes_within.
Qed.

Lemma tame_plink_qc df : tame any_event [20] (plink_qc df).
Proof.
  unfold plink_qc, join, printout. case_decide; [apply tame_ret|].
  do 2 (apply tame_bind; [tame_steps|intros _]).
  apply tame_bind; [|intros names; tame_steps].
  destruct (list_find _ _) as [[i c]|]; tame_steps.
Qed.

Lemma tame_calculate_prs E plink_prefix path output_prefix :
  tame any_event [20] (calculate_prs E plink_prefix path output_prefix).
Proof.
  unfold calculate_prs, printout, print.
  do 6 (apply tame_bind; [tame_steps|intros ?]).
  apply tame_bind; [apply tame_plink_qc|intros ?]. tame_steps.
Qed.



Lemma to_csv_inv index_name idx cols path w out w' :
  to_csv index_name idx cols path w = (out, w') →
  (∃ e, out = Raise e) ∨
  (out = Return tt ∧ ∃ lines,
     w' = logged {| stdin := stdin w; files := <[path := Csv lines]> (files w);
                    trace := trace w |} [Write path]).
Proof.
  unfold to_csv. destruct (list_find _ _) as [[? [? ?]]|]; intros [= <- <-].
  - left. by eexists.
  - right. split; [done|]. by eexists.
Qed.

(** How [assess_and_write] can end. *)
Lemma assess_and_write_inv df plink path w out w' :
  assess_and_write df plink path w = (out, w') →
  (∃ e, out = Raise e) ∨
  ∃ lines, files w' = <[path := Csv lines]> (files w) ∧
    ((out = Return tt ∧ ∃ report,
        trace w' = (trace w ++ [report; Write path])%list ∧ not_plink report) ∨
     (out = Exit 40 ∧
        trace w' = (trace w ++ Write path :: (Print <$> misaligned_files_message))%list)).
Proof.
  unfold assess_and_write, check_the_files_match. intros Hrun.
  rewrite bind_run in Hrun.
  destruct (getitem df "pos_key") as [pos_key|];
    [|left; simplify_eq/=; by eexists].
  destruct (more_than_half _ _).
  - case_decide; rewrite bind_run in Hrun; simpl in Hrun;
      [left; simplify_eq/=; by eexists|].
    rewrite bind_run in Hrun.
    destruct (to_csv _ _ _ _ _) as [[[]|status|e] w1] eqn:Hcsv;
      apply to_csv_inv in Hcsv as [[e' ?]|[? [lines ->]]]; simplify_eq/=;
      try (left; by eexists).
    rewrite ret_run in Hrun. simplify_eq/=.
    right. eexists. split; [reflexivity|]. left. split; [done|].
    eexists. split; [by rewrite <- app_assoc|]. done.
  - simpl in Hrun. rewrite bind_run in Hrun.
    destruct (to_csv _ _ _ _ _) as [[[]|status|e] w1] eqn:Hcsv;
      apply to_csv_inv in Hcsv as [[e' ?]|[? [lines ->]]]; simplify_eq/=;
      try (left; by eexists).
    rewrite bind_run, print_error_misaligned_files_run in Hrun.
    unfold exit in Hrun. simplify_eq/=.
    right. eexists. split; [reflexivity|]. right. split; [done|].
    by rewrite <- app_assoc.
Qed.


(** ** Writing the join file and acting on the verdict *)

(** A run of [preprocess_data] that reaches the point where the verdict is
    acted upon has written the join file by then. *)
Lemma preprocess_data_inv E df plink path w out w' :
  preprocess_data E df plink path w = (out, w') →
  out = Return tt ∨ out = Exit 40 →
  ∃ lines new,
    files w' !! path = Some (Csv lines) ∧ Forall not_plink new ∧
    trace w' = (trace w ++ new ++ Write path ::
                  match out with
                  | Exit _ => Print <$> misaligned_files_message
                  | _ => []
                  end)%list.
Proof.
  unfold preprocess_data. intros Hrun Hout. rewrite bind_run in Hrun.
  destruct (Prompt_ask _ _ w) as [[how|status|e] w1] eqn:Hask;
    destruct (tame_Prompt_ask not_plink [] _ _ ltac:(by intros ?) _ _ _ Hask)
      as [(new1 & Htr1 & Hok1) Hex1].
  2:{ by destruct (proj1 (elem_of_nil status) (Hex1 status eq_refl)). }
  2:{ simplify_eq. by destruct Hout. }
  rewrite bind_run in Hrun.
  destruct (prepare_keys E how df plink w1) as [[keyed|status|e] w2] eqn:Hkeys;
    destruct (tame_prepare_keys _ _ _ _ _ _ _ Hkeys) as [(new2 & Htr2 & Hok2) Hex2].
  2:{ simplify_eq. specialize (Hex2 _ eq_refl).
      apply list_elem_of_singleton in Hex2 as ->. by destruct Hout. }
  2:{ simplify_eq. by destruct Hout. }
  destruct (assess_and_write_inv _ _ _ _ _ _ Hrun)
    as [[e ->]|(lines & Hfiles & [(-> & report & Htr3 & Hok3)|(-> & Htr3)])].
  - by destruct Hout.
  - exists lines, (new1 ++ new2 ++ [report])%list.
    split; [rewrite Hfiles; apply lookup_insert_eq|].
    split; [repeat (apply Forall_app; split); try done; by apply Forall_singleton|].
    rewrite Htr3, Htr2, Htr1, <- !app_assoc. done.
  - exists lines, (new1 ++ new2)%list.
    split; [rewrite Hfiles; apply lookup_insert_eq|].
    split; [by apply Forall_app|].
    rewrite Htr3, Htr2, Htr1, <- !app_assoc. done.
Qed.

(** Whenever [preprocess_data] comes to act on the verdict, be it to go on
    or to leave with status 40, the join file is on disk: writing it is
    the last thing done before the verdict is looked at, and on a
    rejection nothing but the diagnostic follows it.  (A run that raises
    at the writing does not come that far, see the last section.) *)
Theorem join_file_written_before_verdict E df plink path w out w' :
  preprocess_data E df plink path w = (out, w') →
  out = Return tt ∨ out = Exit 40 →
  ∃ lines before,
    files w' !! path = Some (Csv lines) ∧
    (out = Return tt → trace w' = (before ++ [Write path])%list) ∧
    (out = Exit 40 →
       trace w' = (before ++ Write path :: (Print <$> misaligned_files_message))%list).
Proof.
  intros Hrun Hout.
  destruct (preprocess_data_inv _ _ _ _ _ _ _ Hrun Hout) as (lines & new & Hfile & _ & Htr).
  exists lines, (trace w ++ new)%list. split; [done|].
  split; intros ->; by rewrite Htr, <- app_assoc.
Qed.

Lemma join_file_written_before_verdict_witness :
  let w := world ["pos"; "chr_name"; "chr_position"] ∅ in
  let run := preprocess_data plink_fails ten_weights panel_three_shared
               "PGS000001.txt.annotated" w in
  run.1 = Exit 40 ∧ ∃ lines, files run.2 !! "PGS000001.txt.annotated" = Some (Csv lines).
Proof.
  intros w run. split; [vm_compute; reflexivity|].
  destruct (join_file_written_before_verdict plink_fails ten_weights panel_three_shared
              "PGS000001.txt.annotated" w run.1 run.2)
    as (lines & _ & Hfile & _).
  - apply surjective_pairing.
  - right. vm_compute. reflexivity.
  - exists lines. exact Hfile.
Defined.

Lemma check_the_files_match_false df plink w :
  (check_the_files_match df plink w).1 = Return false →
  check_the_files_match df plink w = (Return false, w) ∧
  is_Some (getitem df "pos_key").
Proof.
  unfold check_the_files_match.
  destruct (getitem df "pos_key"); [|done].
  destruct (more_than_half _ _); [|by eauto].
  rewrite bind_run. case_decide; simpl; done.
Qed.

(** On a table that has the two role columns a rejected verdict ends the
    run: once the join file is written the diagnostic with its four likely
    causes is printed and the process leaves with status 40.  And a run of
    the whole script that leaves with status 40 has printed that
    diagnostic last and has not run the scorer at all. *)
Theorem rejected_run_stops_before_scorer E args df plink path w0 w w' :
  ((check_the_files_match df plink w0).1 = Return false →
   is_Some (getitem df "effect_allele") → is_Some (getitem df "effect_weight") →
   ∃ w1, assess_and_write df plink path w0 = (Exit 40, w1) ∧
     trace w1 = (trace w0 ++ Write path :: (Print <$> misaligned_files_message))%list) ∧
  (main E args w = (Exit 40, w') →
   ∃ new, Forall not_plink new ∧
     trace w' = (trace w ++ new ++ (Print <$> misaligned_files_message))%list).
Proof.
  split.
  - intros Hno [allele Ha] [weight Hw].
    apply check_the_files_match_false in Hno as [Hno [keys Hk]].
    unfold assess_and_write.
    rewrite (bind_Return _ _ _ _ _ Hno).
    rewrite (bind_Return _ _ _ _ _ (to_csv_join_run _ _ _ _ _ _ Hk Ha Hw)).
    simpl. rewrite bind_run, print_error_misaligned_files_run.
    eexists. split; [reflexivity|]. simpl. by rewrite <- app_assoc.
  - unfold main. intros Hrun. rewrite bind_run in Hrun.
    destruct (check_input args w) as [[[]|status|e] w1] eqn:Hcheck;
      destruct (tame_check_input _ _ _ _ Hcheck) as [(new1 & Htr1 & Hok1) Hex1].
    2:{ simplify_eq. specialize (Hex1 _ eq_refl).
        repeat (apply elem_of_cons in Hex1 as [?|Hex1]; [done|]).
        by apply elem_of_nil in Hex1. }
    2:{ done. }
    destruct (genetic args), (prs_wm args), (out args); try done.
    rewrite bind_run in Hrun.
    destruct (load_data E _ _ w1) as [[[[pgs panel] file]|status|e] w2] eqn:Hload;
      destruct (tame_load_data _ _ _ _ _ _ Hload) as [(new2 & Htr2 & Hok2) Hex2].
    2:{ by destruct (proj1 (elem_of_nil status) (Hex2 status eq_refl)). }
    2:{ done. }
    rewrite bind_run in Hrun.
    destruct (preprocess_data E pgs panel file w2) as [[[]|status|e] w3] eqn:Hprep.
    + destruct (tame_calculate_prs _ _ _ _ _ _ _ Hrun) as [_ Hex3].
      specialize (Hex3 _ eq_refl). by apply list_elem_of_singleton in Hex3.
    + simplify_eq.
      destruct (preprocess_data_inv _ _ _ _ _ _ _ Hprep ltac:(by right))
        as (lines & new3 & _ & Hok3 & Htr3).
      exists (new1 ++ new2 ++ new3 ++ [Write file])%list. split.
      * repeat (apply Forall_app; split); try done. by apply Forall_singleton.
      * rewrite Htr3, Htr2, Htr1, <- !app_assoc. done.
    + done.
Qed.


Lemma rejected_run_stops_before_scorer_witness :
  let w := world locus_answers (disk panel_three_shared ten_weights) in
  (main plink_scores full_args w).1 = Exit 40 ∧
  ∃ new, Forall not_plink new ∧
    trace (main plink_scores full_args w).2
      = (new ++ (Print <$> misaligned_files_message))%list.
Proof.
  intros w. split; [vm_compute; reflexivity|].
  destruct (proj2 (rejected_run_stops_before_scorer plink_scores full_args
                     ten_weights [] "" w w (main plink_scores full_args w).2))
    as (new & Hok & Htr).
  - transitivity ((main plink_scores full_args w).1, (main plink_scores full_args w).2).
    + apply surjective_pairing.
    + f_equal.
  - exists new. split; [exact Hok|exact Htr].
Defined.

(** ** Dropping samples with too few variants *)

Lemma fmap_injective_on {A B} (f : A → B) (l : list A) x y :
  NoDup (f <$> l) → x ∈ l → y ∈ l → f x = f y → x = y.
Proof.
  induction l as [|a l IH]; csimpl; [by intros _ ?%elem_of_nil|].
  intros [Hnotin Hnodup]%NoDup_cons Hx Hy Heq.
  apply elem_of_cons in Hx as [->|Hx]; apply elem_of_cons in Hy as [->|Hy]; try done.
  - destruct Hnotin. rewrite Heq. by apply list_elem_of_fmap_2.
  - destruct Hnotin. rewrite <- Heq. by apply list_elem_of_fmap_2.
  - by apply IH.
Qed.

Lemma filter_ext_in {A} (P Q : A → Prop) `{∀ x, Decision (P x)} `{∀ x, Decision (Q x)}
    (l : list A) :
  (∀ x, x ∈ l → P x ↔ Q x) → filter P l = filter Q l.
Proof.
  induction l as [|a l IH]; [done|]. intros Hext.
  rewrite !filter_cons.
  rewrite IH by (intros x Hx; apply Hext; by right).
  destruct (decide (P a)) as [HP|HP], (decide (Q a)) as [HQ|HQ]; try done.
  - destruct HQ. apply Hext; [left|done].
  - destruct HP. apply Hext; [left|done].
Qed.

Lemma join_str sep (labels : list cell) w :
  Forall (λ l, ∃ s, l = CStr s) labels →
  join sep labels w = (Return (String.concat sep (str_values labels)), w).
Proof.
  intros Hstr. unfold join. rewrite (proj2 (list_find_None _ _)); [done|].
  eapply Forall_impl; [done|]. by intros ? [s ->] ?.
Qed.

Lemma drop_labels_nil df : drop_labels [] df = df.
Proof.
  unfold drop_labels. induction df as [|r df IH]; [done|].
  rewrite filter_cons_True by (by intros ?%elem_of_nil). by rewrite IH.
Qed.

(** With named samples, no name twice, [plink_qc] keeps exactly the
    samples whose count is not below 0.95 times the mean count of all
    samples. *)
Lemma plink_qc_named_samples df w :
  NoDup (IID <$> df) → Forall (λ r, ∃ s, IID r = CStr s) df →
  (plink_qc df w).1
  = Return (filter (λ r, too_few_snps (mean (CNT2 <$> df)) r = false) df).
Proof.
  intros Hnodup Hstr. unfold plink_qc.
  set (avg := mean (CNT2 <$> df)).
  set (bad := filter (λ r, too_few_snps avg r = true) df).
  assert (Hkeep : drop_labels (IID <$> bad) df
                  = filter (λ r, too_few_snps avg r = false) df).
  { unfold drop_labels. apply filter_ext_in. intros r Hr. split.
    - intros Hnot. destruct (too_few_snps avg r) eqn:Hbad; [|done].
      destruct Hnot. apply list_elem_of_fmap_2. by apply list_elem_of_filter.
    - intros Hok [r' [Heq [Hbad Hr']%list_elem_of_filter]]%list_elem_of_fmap.
      rewrite (fmap_injective_on IID df r r' Hnodup Hr Hr' Heq) in Hok. congruence. }
  case_decide as Hnone.
  - simpl. f_equal. by rewrite <- Hkeep, Hnone, drop_labels_nil.
  - do 2 (erewrite bind_Return by reflexivity).
    erewrite bind_Return; [by rewrite Hkeep|].
    apply join_str, Forall_fmap, Forall_forall.
    intros r [_ Hr]%list_elem_of_filter. rewrite Forall_forall in Hstr. by apply Hstr.
Qed.

(** The worked example: of S1, S2, S3 with counts 100, 100, 40 the mean is
    80, the threshold 76, and S3 alone is dropped. *)
Lemma plink_qc_worked_example w :
  (plink_qc scores_named w).1 = Return [score (CStr "S1") 100; score (CStr "S2") 100].
Proof.
  rewrite plink_qc_named_samples.
  - by vm_compute.
  - apply (bool_decide_unpack _). by vm_compute.
  - repeat constructor; by eexists.
Qed.

(** C7 fails on the script where the samples are numbered, not named: the
    sample to drop is found, but the warning that lists the dropped names
    joins them with [","], which Python allows for [str] items only.  The
    [TypeError] ends the run before anything is dropped. *)
Theorem plink_qc_numbered_samples_raise w :
  plink_qc scores_numbered w
  = (Raise (TypeError "sequence item 0: expected str instance, int found"),
     logged w
       [Printout "WARNING: The following samples has a lot of missing SNPs (more than 5% of SNPs, available on average in other samples)";
        Printout "They will dropped from the following analysis"]).
Proof.
  assert (Hbad : IID <$> filter (λ r, too_few_snps (mean (CNT2 <$> scores_numbered)) r = true)
                            scores_numbered = [CInt 3]) by (by vm_compute).
  unfold plink_qc. rewrite Hbad. rewrite decide_False by done.
  do 2 (erewrite bind_Return by reflexivity).
  erewrite bind_Raise by reflexivity.
  by rewrite logged_logged.
Qed.

(** ** Exit statuses *)

Lemma isfile_run path w :
  isfile path w = (Return (bool_decide (is_Some (files w !! path))), w).
Proof. reflexivity. Qed.

Lemma isfile_missing path w : files w !! path = None → isfile path w = (Return false, w).
Proof.
  intros H. rewrite isfile_run, bool_decide_eq_false_2; [done|].
  rewrite H. by intros [? ?].
Qed.

Lemma isfile_found path w : is_Some (files w !! path) → isfile path w = (Return true, w).
Proof. intros H. by rewrite isfile_run, bool_decide_eq_true_2. Qed.

(** The loop over the three files of the genetic data stops at the first
    that is missing. *)
Lemma genetic_files_loop g exts w :
  for_each exts (λ ext,
    found ← isfile (g ++ "." ++ ext);
    when (negb found)
      (print ("plink genetic data are malformed - " ++ g ++ "." ++ ext ++ " is missing");;
       exit 4)) w
  = match list_find (λ ext, ¬ is_Some (files w !! (g ++ "." ++ ext))) exts with
    | Some (_, ext) =>
        (Exit 4, logged w [Print ("plink genetic data are malformed - " ++ g ++ "."
                                    ++ ext ++ " is missing")])
    | None => (Return tt, w)
    end.
Proof.
  induction exts as [|ext exts IH]; [done|].
  simpl for_each. rewrite bind_run, bind_run, isfile_run.
  cbn [list_find]. case_decide as Hext.
  - rewrite bool_decide_eq_false_2 by done. done.
  - rewrite bool_decide_eq_true_2 by done. simpl.
    rewrite IH. by destruct (list_find _ exts) as [[? ?]|].
Qed.

Lemma check_input_malformed args g ext w :
  genetic args = Some g → ext ∈ ["bed"; "bim"; "fam"] →
  files w !! (g ++ "." ++ ext) = None →
  (check_input args w).1 = Exit 4.
Proof.
  intros Hg Hext Hmissing. unfold check_input. rewrite Hg.
  rewrite bind_run, genetic_files_loop.
  destruct (list_find_elem_of (λ ext, ¬ is_Some (files w !! (g ++ "." ++ ext)))
              ["bed"; "bim"; "fam"] ext Hext) as [[i ext'] ->]; [|done].
  rewrite Hmissing. by intros [? ?].
Qed.

Lemma check_input_files_found args g w :
  genetic args = Some g →
  (∀ ext, ext ∈ ["bed"; "bim"; "fam"] → is_Some (files w !! (g ++ "." ++ ext))) →
  check_input args w
  = match prs_wm args with
    | None =>
        (print "PRS weight matrix is required";; print_help;; exit 2) w
    | Some p =>
        (found ← isfile p;
         when (negb found) (print "PRS weight matrix file does not exist";; exit 5);;
         when (bool_decide (out args = None))
           (print "Output prefix is required";; print_help;; exit 3)) w
    end.
Proof.
  intros Hg Hfound. unfold check_input. rewrite Hg.
  rewrite bind_run, genetic_files_loop.
  rewrite (proj2 (list_find_None _ _)); [by destruct (prs_wm args)|].
  apply Forall_forall. intros ext Hext Hno. by apply Hno, Hfound.
Qed.





(** * Further properties of the script *)

(** ** What a computation leaves alone *)

Global Instance same_files_steady : Steady same_files.
Proof. split; unfold same_files; simpl; congruence. Qed.

Global Instance same_world_steady : Steady same_world.
Proof. split; unfold same_world; simpl; intuition congruence. Qed.

Section Preserves.
Context (R : World → World → Prop) `{!Steady R}.

Lemma preserves_bind {A B} (m : M A) (f : A → M B) :
  preserves R m → (∀ a, preserves R (f a)) → preserves R (m ≫= f).
Proof.
  intros Hm Hf w out w' Hrun. rewrite bind_run in Hrun.
  destruct (m w) as [[a|status|e] w1] eqn:Hmw; pose proof (Hm _ _ _ Hmw) as H1.
  - eapply steady_trans; [done|]. by eapply Hf.
  - by simplify_eq.
  - by simplify_eq.
Qed.

Lemma preserves_still {A} (m : M A) :
  (∀ w, ∃ out, m w = (out, w)) → preserves R m.
Proof.
  intros Hm w out w' Hrun. destruct (Hm w) as [out' Hrun'].
  rewrite Hrun' in Hrun. simplify_eq. apply steady_refl.
Qed.

Lemma preserves_ret {A} (a : A) : preserves R (mret a).
Proof. apply preserves_still. intros w. by eexists. Qed.

Lemma preserves_exit {A} status : preserves R (exit (A:=A) status).
Proof. apply preserves_still. intros w. by eexists. Qed.

Lemma preserves_raise {A} e : preserves R (raise (A:=A) e).
Proof. apply preserves_still. intros w. by eexists. Qed.

Lemma preserves_isfile path : preserves R (isfile path).
Proof. apply preserves_still. intros w. by eexists. Qed.

Lemma preserves_read_table path : preserves R (read_table path).
Proof.
  apply preserves_still. intros w. unfold read_table.
  destruct (files w !! path) as [[]|]; by eexists.
Qed.

Lemma preserves_read_bim path : preserves R (read_bim path).
Proof.
  apply preserves_still. intros w. unfold read_bim.
  destruct (files w !! path) as [[]|]; by eexists.
Qed.

Lemma preserves_read_profile path : preserves R (read_profile path).
Proof.
  apply preserves_still. intros w. unfold read_profile.
  destruct (files w !! path) as [[]|]; by eexists.
Qed.

Lemma preserves_emit ev : preserves R (emit ev).
Proof. intros w out w' [= <- <-]. apply steady_logged. Qed.

Lemma preserves_when cond body : preserves R body → preserves R (when cond body).
Proof. destruct cond; [done|]. intros _. apply preserves_ret. Qed.

Lemma preserves_for_each {A} (xs : list A) body :
  (∀ x, preserves R (body x)) → preserves R (for_each xs body).
Proof.
  intros Hbody. induction xs as [|x xs IH]; simpl; [apply preserves_ret|].
  apply preserves_bind; [done|]. by intros _.
Qed.
End Preserves.

Lemma same_files_Prompt_ask question choices :
  preserves same_files (Prompt_ask question choices).
Proof.
  intros w out w' Hrun. unfold Prompt_ask in Hrun.
  destruct (first_choice _ _) as [[a rest]|]; by simplify_eq.
Qed.

(** Take a computation apart along its binds. *)
Ltac preserves_steps :=
  repeat first
    [ match goal with |- Steady _ => apply _ end
    | apply preserves_ret | apply preserves_exit | apply preserves_raise
    | apply preserves_isfile | apply preserves_emit
    | apply preserves_read_table | apply preserves_read_bim | apply preserves_read_profile
    | apply same_files_Prompt_ask
    | apply preserves_bind; [apply _| |intros ?]
    | apply preserves_for_each; [apply _|intros ?]
    | apply preserves_when ].

(** ** Checking the command line *)

Lemma same_world_check_input args : preserves same_world (check_input args).
Proof.
  unfold check_input, print, print_help.
  destruct (genetic args); [|preserves_steps].
  apply preserves_bind; [apply _|preserves_steps|intros _].
  destruct (prs_wm args); preserves_steps.
Qed.

Lemma tame_printed_check_input args : tame printed [1; 2; 3; 4; 5] (check_input args).
Proof.
  unfold check_input, print, print_help.
  destruct (genetic args).
  - apply tame_bind; [|intros _].
    + apply tame_for_each. intros ext. apply tame_bind; [apply tame_isfile|intros found].
      apply tame_when, tame_bind; [by apply tame_emit|intros _].
      apply tame_exit. repeat constructor.
    + destruct (prs_wm args).
      * apply tame_bind; [apply tame_isfile|intros found].
        apply tame_bind; [|intros _].
        -- apply tame_when, tame_bind; [by apply tame_emit|intros _].
           apply tame_exit. repeat constructor.
        -- apply tame_when. do 2 (apply tame_bind; [by apply tame_emit|intros _]).
           apply tame_exit. repeat constructor.
      * do 2 (apply tame_bind; [by apply tame_emit|intros _]).
        apply tame_exit. repeat constructor.
  - do 2 (apply tame_bind; [by apply tame_emit|intros _]).
    apply tame_exit. repeat constructor.
Qed.

(** X1. [check_input] lets a run go on exactly when the three arguments are
    given, the three files of the genetic data exist and the weight matrix
    exists; it then has printed nothing and changed nothing.  It never
    raises. *)
Theorem check_input_passes args w :
  (check_input args w = (Return tt, w) ↔
     ∃ g p o, genetic args = Some g ∧ prs_wm args = Some p ∧ out args = Some o ∧
       (∀ ext, ext ∈ ["bed"; "bim"; "fam"] → is_Some (files w !! (g ++ "." ++ ext))) ∧
       is_Some (files w !! p)) ∧
  ((check_input args w).1 = Return tt ∨ ∃ status, (check_input args w).1 = Exit status) ∧
  ((check_input args w).1 = Return tt → (check_input args w).2 = w).
Proof.
  assert (Hcases :
    (check_input args w = (Return tt, w) ∧
       ∃ g p o, genetic args = Some g ∧ prs_wm args = Some p ∧ out args = Some o ∧
         (∀ ext, ext ∈ ["bed"; "bim"; "fam"] → is_Some (files w !! (g ++ "." ++ ext))) ∧
         is_Some (files w !! p)) ∨
    (∃ status, (check_input args w).1 = Exit status)).
  { destruct (genetic args) as [g|] eqn:Hg.
    2:{ right. exists 1. unfold check_input. rewrite Hg. reflexivity. }
    destruct (decide (Forall (λ ext, is_Some (files w !! (g ++ "." ++ ext)))
                        ["bed"; "bim"; "fam"])) as [Hall|Hnot].
    2:{ right. exists 4. apply not_Forall_Exists in Hnot; [|apply _].
        apply Exists_exists in Hnot as (ext & Hext & Hmissing).
        eapply check_input_malformed; [done..|].
        destruct (files w !! (g ++ "." ++ ext)) eqn:Hf; [|done].
        destruct Hmissing. by eexists. }
    rewrite Forall_forall in Hall.
    rewrite (check_input_files_found args g w Hg Hall).
    destruct (prs_wm args) as [p|] eqn:Hp; [|right; exists 2; reflexivity].
    destruct (files w !! p) as [f|] eqn:Hfile.
    2:{ right. exists 5. by rewrite bind_run, isfile_missing. }
    rewrite bind_run, isfile_found by (by rewrite Hfile). simpl. rewrite bind_run. simpl.
    destruct (out args) as [o|] eqn:Ho; [|right; exists 3; reflexivity].
    left. split; [done|]. exists g, p, o. by rewrite Hfile. }
  split; [|split].
  - split.
    + intros Hrun. destruct Hcases as [[_ ?]|[status Hexit]]; [done|].
      rewrite Hrun in Hexit. done.
    + intros (g & p & o & Hg & Hp & Ho & Hfiles & Hfile).
      destruct Hcases as [[? _]|[status Hexit]]; [done|].
      (* the conditions exclude every exit *)
      exfalso. revert Hexit. rewrite (check_input_files_found args g w Hg Hfiles), Hp.
      rewrite bind_run, isfile_found by done. simpl. rewrite bind_run. simpl.
      by rewrite Ho.
  - destruct Hcases as [[-> _]|?]; [by left|by right].
  - destruct Hcases as [[-> _]|[status Hexit]]; [done|]. by rewrite Hexit.
Qed.

(** X2. Whatever [check_input] decides, it asks nothing, runs nothing and
    writes nothing: the answers and the files are as before, and all it
    adds to the trace are printed lines and the help text. *)
Theorem check_input_only_prints args w :
  stdin (check_input args w).2 = stdin w ∧
  files (check_input args w).2 = files w ∧
  ∃ new, trace (check_input args w).2 = (trace w ++ new)%list ∧ Forall printed new.
Proof.
  destruct (check_input args w) as [out w'] eqn:Hrun.
  destruct (same_world_check_input args _ _ _ Hrun) as [Hin Hfs].
  destruct (tame_printed_check_input args _ _ _ Hrun) as [Hnew _].
  done.
Qed.

(** ** Loading the tables *)

Lemma string_app_cons c (a b : string) : String c a ++ b = String c (a ++ b).
Proof. reflexivity. Qed.

Lemma substring_0_app (a b : string) j :
  String.substring 0 (String.length a + j) (a ++ b) = a ++ String.substring 0 j b.
Proof.
  induction a as [|c a IH]; [done|].
  rewrite !string_app_cons. simpl. by rewrite IH.
Qed.

Lemma substring_0_all (s : string) : String.substring 0 (String.length s) s = s.
Proof. induction s as [|c s IH]; simpl; [done|]. by rewrite IH. Qed.

Lemma substring_split (s : string) m :
  (m ≤ String.length s)%nat →
  String.substring 0 m s ++ String.substring m (String.length s - m) s = s.
Proof.
  revert m. induction s as [|c s IH]; intros m Hm; simpl in *.
  - by destruct m.
  - destruct m as [|m]; simpl.
    + by rewrite substring_0_all.
    + rewrite string_app_cons. f_equal. apply IH. lia.
Qed.

(** [endswith] holds of the strings that end with the suffix. *)
Lemma endswith_spec (s suffix : string) :
  endswith s suffix = true ↔ ∃ stem, s = stem ++ suffix.
Proof.
  unfold endswith. rewrite andb_true_iff, !bool_decide_eq_true. split.
  - intros [Hlen Hsuf].
    exists (String.substring 0 (String.length s - String.length suffix) s).
    pose proof (substring_split s (String.length s - String.length suffix)
                  ltac:(lia)) as Hsplit.
    replace (String.length s - (String.length s - String.length suffix))%nat
      with (String.length suffix) in Hsplit by lia.
    by rewrite Hsuf in Hsplit.
  - intros [stem ->]. rewrite string_length_app. split; [lia|].
    replace (String.length stem + String.length suffix - String.length suffix)%nat
      with (String.length stem) by lia.
    clear. induction stem as [|c stem IH]; simpl; [apply substring_0_all|done].
Qed.

(** X3. [maybe_unpack] leaves alone a path that does not end in ".txt.gz":
    nothing is run and nothing printed.  A path [stem ++ ".txt.gz"] is
    handed to [gunzip]; when that returns 0 the path of the unpacked file,
    [stem ++ ".txt"], comes back, and otherwise the assertion fails. *)
Theorem maybe_unpack_cases E path w :
  (endswith path ".txt.gz" = false ∧ maybe_unpack E path w = (Return path, w)) ∨
  (∃ stem rc err fs,
     path = stem ++ ".txt.gz" ∧
     subprocess E ["gunzip"; path] (files w) = (rc, err, fs) ∧
     maybe_unpack E path w
     = (if decide (rc = 0) then Return (stem ++ ".txt")
        else Raise (AssertionError "  ERROR: gunzip crashed"),
        {| stdin := stdin w; files := fs;
           trace := trace w ++ [Printout "gzipped PGSCatalog file found, unpacking...";
                                Run ["gunzip"; path]] |})).
Proof.
  unfold maybe_unpack. destruct (endswith path ".txt.gz") eqn:Hend; [right|by left].
  apply endswith_spec in Hend as [stem ->].
  destruct (subprocess E ["gunzip"; stem ++ ".txt.gz"] (files w)) as [[rc err] fs] eqn:Hrun.
  exists stem, rc, err, fs. split; [done|]. split; [done|].
  erewrite bind_Return by reflexivity.
  rewrite bind_run. unfold subprocess_run. simpl files. rewrite Hrun. simpl.
  rewrite bind_run. unfold logged. simpl. rewrite <- app_assoc. simpl.
  destruct (decide (rc = 0)) as [->|Hrc].
  - simpl. rewrite ret_run. do 2 f_equal.
    rewrite string_length_app. simpl String.length.
    replace (String.length stem + 7 - 3)%nat with (String.length stem + 4)%nat by lia.
    by rewrite substring_0_app.
  - by rewrite bool_decide_eq_false_2.
Qed.

(** X4. The dictionary of new names that [annotate_pgscatalog_file] builds
    from the operator's two answers always gives the effect-allele column
    its role; the weight column keeps its role only if it is another
    column: naming one column for both roles leaves a dictionary of one
    entry. *)
Theorem annotate_pgscatalog_file_roles df w beta_column rest0 effect_allele_column rest :
  first_choice (columns df).*1 (stdin w) = Some (beta_column, rest0) →
  first_choice (columns df).*1 rest0 = Some (effect_allele_column, rest) →
  ∃ mapper w',
    annotate_pgscatalog_file df w = (Return mapper, w') ∧
    stdin w' = rest ∧ files w' = files w ∧
    mapper !! effect_allele_column = Some "effect_allele" ∧
    (beta_column ≠ effect_allele_column →
       mapper !! beta_column = Some "effect_weight" ∧ size mapper = 2%nat) ∧
    (beta_column = effect_allele_column →
       mapper = {[effect_allele_column := "effect_allele"]}).
Proof.
  intros Hb Ha. unfold annotate_pgscatalog_file.
  rewrite (bind_Return _ _ _ _ _ (Prompt_ask_run _ _ _ _ _ Hb)).
  erewrite bind_Return by (by apply Prompt_ask_run).
  rewrite ret_run. eexists _, _. split; [done|]. simpl.
  split; [done|]. split; [done|]. split; [apply lookup_insert_eq|]. split.
  - intros Hne. split.
    + rewrite lookup_insert_ne by done. apply lookup_insert_eq.
    + rewrite map_size_insert_None.
      * rewrite map_size_insert_None by apply lookup_empty.
        by rewrite map_size_empty.
      * by rewrite lookup_insert_ne.
  - intros ->. by rewrite insert_insert_eq.
Qed.

Lemma annotate_pgscatalog_file_roles_witness :
  ∃ mapper w',
    annotate_pgscatalog_file ten_weights (world ["effect_weight"; "effect_weight"] ∅)
      = (Return mapper, w') ∧
    mapper = {[ "effect_weight" := "effect_allele" ]}.
Proof.
  destruct (annotate_pgscatalog_file_roles ten_weights
              (world ["effect_weight"; "effect_weight"] ∅)
              "effect_weight" ["effect_weight"] "effect_weight" [] eq_refl eq_refl)
    as (mapper & w' & Hrun & _ & _ & _ & _ & Hsame).
  exists mapper, w'. split; [exact Hrun|]. exact (Hsame eq_refl).
Defined.

Lemma string_app_assoc (a b c : string) : (a ++ b) ++ c = a ++ (b ++ c).
Proof.
  induction a as [|x a IH]; [done|].
  change (String x ((a ++ b) ++ c) = String x (a ++ (b ++ c))). by rewrite IH.
Qed.

Lemma printout_run text w : printout text w = (Return tt, logged w [Printout text]).
Proof. reflexivity. Qed.

Lemma maybe_unpack_inv E path w unpacked w' :
  maybe_unpack E path w = (Return unpacked, w') →
  unpacked = path ∨ path = unpacked ++ ".gz".
Proof.
  unfold maybe_unpack. destruct (endswith path ".txt.gz") eqn:Hend.
  - apply endswith_spec in Hend as [stem ->]. intros Hrun. right.
    rewrite bind_run, printout_run, bind_run in Hrun. unfold subprocess_run in Hrun.
    destruct (subprocess E _ _) as [[rc err] fs]. simpl in Hrun.
    rewrite bind_run in Hrun. destruct (bool_decide (rc = 0)); simpl in Hrun; [|done].
    rewrite ret_run in Hrun. injection Hrun as <- _.
    rewrite string_length_app. simpl String.length.
    replace (String.length stem + 7 - 3)%nat with (String.length stem + 4)%nat by lia.
    rewrite substring_0_app. simpl. by rewrite string_app_assoc.
  - intros [= <- _]. by left.
Qed.

Lemma same_files_load_prs_wm path : preserves same_files (load_prs_wm path).
Proof. unfold load_prs_wm, printout. preserves_steps. Qed.

Lemma load_prs_wm_inv path w df w' :
  load_prs_wm path w = (Return df, w') → files w !! path = Some (Table df).
Proof.
  unfold load_prs_wm. rewrite bind_run. unfold read_table.
  destruct (files w !! path) as [[parsed| | | |]|]; try done.
  rewrite bind_run, printout_run, bind_run.
  destruct (when _ _ _) as [[[]|?|?] ?]; [|done..].
  rewrite ret_run. by intros [= <- _].
Qed.

Lemma same_files_annotate_pgscatalog_file df :
  preserves same_files (annotate_pgscatalog_file df).
Proof. unfold annotate_pgscatalog_file. preserves_steps. Qed.

Lemma read_bim_inv path w rows w' :
  read_bim path w = (Return rows, w') → files w !! path = Some (Bim rows) ∧ w' = w.
Proof.
  unfold read_bim. destruct (files w !! path) as [[| | | |]|]; try done.
  by intros [= <- <-].
Qed.

Lemma rename_no_str mapper df :
  Forall (λ label, type_name label ≠ "str") (index df) → rename mapper df = df.
Proof.
  intros Hlabels. destruct df as [idx cols]. unfold rename. simpl in *. f_equal.
  induction Hlabels as [|label idx Hlabel _ IH]; csimpl; [done|].
  rewrite IH. by destruct label.
Qed.

(** X5. [load_data] never renames a column.  The weight table it returns
    has the columns of the file as parsed, names included, whichever
    columns the operator names as weight and effect allele: the dictionary
    of new names is handed to [rename] without [columns=], so it is applied
    to the row labels.  With the row labels [read_table] gives, which are
    numbers, the table comes back exactly as parsed.  The join file will go
    to the path of the unpacked weight matrix followed by ".annotated". *)
Theorem load_data_keeps_column_names E plink_prefix prs_wm_text_file w
    pgscatalog_df plink_variants_df processed_wm_text_file w' :
  load_data E plink_prefix prs_wm_text_file w
    = (Return (pgscatalog_df, plink_variants_df, processed_wm_text_file), w') →
  ∃ unpacked parsed,
    (unpacked = prs_wm_text_file ∨ prs_wm_text_file = unpacked ++ ".gz") ∧
    processed_wm_text_file = unpacked ++ ".annotated" ∧
    files w' !! unpacked = Some (Table parsed) ∧
    files w' !! (plink_prefix ++ ".bim") = Some (Bim plink_variants_df) ∧
    columns pgscatalog_df = columns parsed ∧
    (Forall (λ label, type_name label ≠ "str") (index parsed) → pgscatalog_df = parsed).
Proof.
  unfold load_data. intros Hrun. rewrite bind_run in Hrun.
  destruct (maybe_unpack E _ w) as [[unpacked|?|?] w1] eqn:Hunpack; [|done..].
  apply maybe_unpack_inv in Hunpack.
  rewrite bind_run, printout_run, bind_run in Hrun.
  destruct (load_prs_wm unpacked _) as [[parsed|?|?] w2] eqn:Hload; [|done..].
  pose proof (same_files_load_prs_wm _ _ _ _ Hload) as Hfs2.
  apply load_prs_wm_inv in Hload. simpl in Hload.
  rewrite bind_run in Hrun.
  destruct (annotate_pgscatalog_file parsed w2) as [[mapper|?|?] w3] eqn:Hroles; [|done..].
  pose proof (same_files_annotate_pgscatalog_file _ _ _ _ Hroles) as Hfs3.
  rewrite bind_run, printout_run, bind_run in Hrun.
  destruct (read_bim _ _) as [[rows|?|?] w4] eqn:Hbim; [|done..].
  apply read_bim_inv in Hbim as [Hbim ->].
  rewrite bind_run, printout_run, ret_run in Hrun. simplify_eq/=.
  unfold same_files in *. simpl in *.
  exists unpacked, parsed. rewrite Hfs3, Hfs2.
  repeat split; try done.
  - by rewrite <- Hfs2, <- Hfs3.
  - intros Hlabels. by apply rename_no_str.
Qed.

Lemma load_data_keeps_column_names_witness :
  ∃ unpacked parsed,
    "PGS000001.txt.annotated" = unpacked ++ ".annotated" ∧
    columns ten_weights = columns parsed.
Proof.
  pose (w := world ["chr_name"; "chr_position"] (disk panel_six_shared ten_weights)).
  pose (run := load_data plink_fails "data/panel" "PGS000001.txt" w).
  destruct (load_data_keeps_column_names plink_fails "data/panel" "PGS000001.txt" w
              ten_weights panel_six_shared "PGS000001.txt.annotated" run.2)
    as (unpacked & parsed & _ & Hpath & _ & _ & Hcols & _).
  - transitivity (run.1, run.2); [apply surjective_pairing|].
    f_equal.
  - exists unpacked, parsed. split; [exact Hpath|exact Hcols].
Defined.

(** ** Keying the weight table *)

Lemma get_set_column name s cols : get_column name (set_column name s cols) = Some s.
Proof.
  induction cols as [|c cols IH]; simpl; [by case_decide|].
  case_decide; simpl; by case_decide.
Qed.

Lemma get_set_column_ne name name' s cols :
  name' ≠ name → get_column name' (set_column name s cols) = get_column name' cols.
Proof.
  intros Hne. induction cols as [|c cols IH]; simpl; [by case_decide|].
  case_decide as Hc; simpl.
  - case_decide; [done|]. case_decide; [congruence|done].
  - case_decide; [done|apply IH].
Qed.

Lemma get_set_column_df df name s : getitem (setitem df name s) name = Some s.
Proof. apply get_set_column. Qed.

Lemma get_set_column_ne_df name df name' s :
  name' ≠ name → getitem (setitem df name s) name' = getitem df name'.
Proof. apply get_set_column_ne. Qed.

Lemma wf_setitem df name s :
  wf df → length s = shape0 df → wf (setitem df name s).
Proof.
  unfold wf, setitem, shape0. simpl. intros Hwf Hlen.
  induction Hwf as [|c cols Hc Hcols IH]; simpl; [by repeat constructor|].
  case_decide; constructor; simpl; done.
Qed.

Lemma Prompt_ask_inv question choices w a w' :
  Prompt_ask question choices w = (Return a, w') →
  a ∈ choices ∧ files w' = files w.
Proof.
  unfold Prompt_ask. destruct (first_choice _ _) as [[b rest]|] eqn:Hans; [|done].
  intros [= <- <-]. split; [by eapply first_choice_elem|done].
Qed.

Lemma prep_keys_rsid_inv E df plink w keyed w' :
  prep_keys_rsid E df plink w = (Return keyed, w') →
  files w' = files w ∧
  ∃ ids, ids ∈ (columns df).*2 ∧ keyed = setitem df "pos_key" (CStr <$> astype_str E ids).
Proof.
  destruct (no_variant_ids (rsid <$> plink)) eqn:Hqc.
  { by rewrite prep_keys_rsid_stops. }
  unfold prep_keys_rsid. rewrite Hqc, bind_run. simpl. rewrite bind_run.
  destruct (Prompt_ask _ _ w) as [[column|?|?] w1] eqn:Hask; [|done..].
  apply Prompt_ask_inv in Hask as [_ Hfs].
  destruct (getitem df column) as [ids|] eqn:Hids; [|done].
  intros [= <- <-]. split; [done|]. exists ids. split; [|done].
  apply get_column_elem in Hids. by apply (list_elem_of_fmap_2 snd _ (column, ids)).
Qed.

Lemma prep_keys_chrompos_inv E df plink w keyed w' :
  prep_keys_chrompos E df plink w = (Return keyed, w') →
  files w' = files w ∧
  ∃ chrom pos, chrom ∈ (columns df).*2 ∧ pos ∈ (columns df).*2 ∧
    keyed = setitem df "pos_key" (locus_keys E chrom pos).
Proof.
  unfold prep_keys_chrompos. rewrite bind_run.
  destruct (Prompt_ask _ _ w) as [[chrom_column|?|?] w1] eqn:Hc; [|done..].
  apply Prompt_ask_inv in Hc as [_ Hfs1]. rewrite bind_run.
  destruct (Prompt_ask _ _ w1) as [[pos_column|?|?] w2] eqn:Hp; [|done..].
  apply Prompt_ask_inv in Hp as [_ Hfs2].
  destruct (getitem df chrom_column) as [chrom|] eqn:Hchrom,
           (getitem df pos_column) as [pos|] eqn:Hpos; try done.
  intros [= <- <-]. split; [congruence|]. exists chrom, pos.
  apply get_column_elem in Hchrom, Hpos.
  split; [by apply (list_elem_of_fmap_2 snd _ (chrom_column, chrom))|].
  split; [by apply (list_elem_of_fmap_2 snd _ (pos_column, pos))|].
  unfold locus_keys, astype_str. by rewrite zip_with_fmap_l, zip_with_fmap_r.
Qed.

Lemma wf_column df s : wf df → s ∈ (columns df).*2 → length s = shape0 df.
Proof.
  unfold wf. rewrite Forall_forall. intros Hwf [[name s'] [-> Hin]]%list_elem_of_fmap.
  by apply (Hwf (name, s')).
Qed.

(** A table comes back from [prepare_keys] with a key column of one [str]
    per row set on it, and nothing else done. *)
Lemma prepare_keys_inv E how_to_match df plink w keyed w' :
  prepare_keys E how_to_match df plink w = (Return keyed, w') →
  ∃ keys : list string, files w' = files w ∧ (wf df → length keys = shape0 df) ∧
    keyed = setitem df "pos_key" (CStr <$> keys).
Proof.
  intros Hrun.
  unfold prepare_keys in Hrun. case_decide; [|case_decide; [|done]].
  - rewrite bind_run, printout_run in Hrun.
    apply prep_keys_rsid_inv in Hrun as (Hfs & ids & Hids & ->).
    exists (astype_str E ids). split; [done|]. split; [|done].
    intros Hwf. unfold astype_str. rewrite length_fmap. by apply wf_column.
  - rewrite bind_run, printout_run in Hrun.
    apply prep_keys_chrompos_inv in Hrun as (Hfs & chrom & pos & Hc & Hp & ->).
    eexists. split; [done|]. split; [|done].
    intros Hwf.
    rewrite length_zip_with, (wf_column df chrom), (wf_column df pos) by done. lia.
Qed.

(** X6. Whichever strategy runs, keying leaves the weight table as it was
    but for the key column: the rows and their labels, and every other
    column, are untouched, the key column holds one [str] per row, and no
    file is touched. *)
Theorem prepare_keys_adds_key_column E how_to_match df plink w keyed w' :
  wf df →
  prepare_keys E how_to_match df plink w = (Return keyed, w') →
  wf keyed ∧ index keyed = index df ∧ files w' = files w ∧
  (∀ name, name ≠ "pos_key" → getitem keyed name = getitem df name) ∧
  ∃ keys : list string,
    getitem keyed "pos_key" = Some (CStr <$> keys) ∧ length keys = shape0 df.
Proof.
  intros Hwf Hrun.
  destruct (prepare_keys_inv _ _ _ _ _ _ _ Hrun) as (keys & Hfs & Hlen & ->).
  specialize (Hlen Hwf).
  split; [apply wf_setitem; [done|by rewrite length_fmap]|].
  split; [done|]. split; [done|]. split.
  - intros name Hne. by apply get_set_column_ne.
  - exists keys. split; [apply get_set_column|done].
Qed.

Lemma prepare_keys_adds_key_column_witness :
  wf ten_weights_keyed ∧
  ∃ keys : list string,
    getitem ten_weights_keyed "pos_key" = Some (CStr <$> keys) ∧ length keys = 10%nat.
Proof.
  pose (w := world ["chr_name"; "chr_position"] ∅).
  pose (run := prepare_keys plink_fails CHROMPOS ten_weights panel_six_shared w).
  destruct (prepare_keys_adds_key_column plink_fails CHROMPOS ten_weights
              panel_six_shared w ten_weights_keyed run.2)
    as (Hwf & _ & _ & _ & Hkeys).
  - unfold wf. simpl. repeat constructor.
  - transitivity (run.1, run.2); [apply surjective_pairing|]. f_equal.
  - split; [exact Hwf|exact Hkeys].
Defined.

(** ** What can go wrong in [preprocess_data] *)

Lemma Prompt_ask_raises question choices w e w' :
  Prompt_ask question choices w = (Raise e, w') → e = EOFError.
Proof.
  unfold Prompt_ask. destruct (first_choice _ _) as [[? ?]|]; [done|]. by intros [= <- _].
Qed.

Lemma prep_keys_rsid_raises E df plink w e w' :
  prep_keys_rsid E df plink w = (Raise e, w') → e = EOFError.
Proof.
  destruct (no_variant_ids (rsid <$> plink)) eqn:Hqc.
  { by rewrite prep_keys_rsid_stops. }
  unfold prep_keys_rsid. rewrite Hqc, bind_run. simpl. rewrite bind_run.
  destruct (Prompt_ask _ _ w) as [[column|?|?] w1] eqn:Hask; [|done|].
  - apply Prompt_ask_inv in Hask as [Hin _].
    destruct (get_column_is_Some _ _ Hin) as [ids Hids].
    unfold getitem. by rewrite Hids.
  - apply Prompt_ask_raises in Hask as ->. by intros [= <- _].
Qed.

Lemma prep_keys_chrompos_raises E df plink w e w' :
  prep_keys_chrompos E df plink w = (Raise e, w') → e = EOFError.
Proof.
  unfold prep_keys_chrompos. rewrite bind_run.
  destruct (Prompt_ask _ _ w) as [[chrom_column|?|?] w1] eqn:Hc; [|done|].
  2:{ apply Prompt_ask_raises in Hc as ->. by intros [= <- _]. }
  apply Prompt_ask_inv in Hc as [Hcin _]. rewrite bind_run.
  destruct (Prompt_ask _ _ w1) as [[pos_column|?|?] w2] eqn:Hp; [|done|].
  2:{ apply Prompt_ask_raises in Hp as ->. by intros [= <- _]. }
  apply Prompt_ask_inv in Hp as [Hpin _].
  destruct (get_column_is_Some _ _ Hcin) as [chrom Hchrom].
  destruct (get_column_is_Some _ _ Hpin) as [pos Hpos].
  unfold getitem. by rewrite Hchrom, Hpos.
Qed.

Lemma prepare_keys_raises E how df plink w e w' :
  how ∈ [RSID; CHROMPOS] →
  prepare_keys E how df plink w = (Raise e, w') → e = EOFError.
Proof.
  intros Hhow. unfold prepare_keys. case_decide; [|case_decide].
  - rewrite bind_run, printout_run. apply prep_keys_rsid_raises.
  - rewrite bind_run, printout_run. apply prep_keys_chrompos_raises.
  - apply elem_of_cons in Hhow as [?|Hhow]; [done|].
    by apply list_elem_of_singleton in Hhow.
Qed.

Lemma to_csv_raises index_name idx cols path w e w' :
  to_csv index_name idx cols path w = (Raise e, w') →
  w' = w ∧ ∃ name, e = KeyError name ∧ (name, None) ∈ cols.
Proof.
  unfold to_csv. destruct (list_find _ _) as [[i [name s]]|] eqn:Hfind; [|done].
  intros [= <- <-]. split; [done|]. exists name. split; [done|].
  apply list_find_Some in Hfind as (Hin & Hnone & _). simpl in Hnone. subst s.
  by eapply list_elem_of_lookup_2.
Qed.

(** X7. With a well-formed weight table [preprocess_data] raises for two
    reasons only: the operator's answers run out, or the table has no
    column called "effect_allele" or none called "effect_weight" when the
    join file is to be written, and then no file has been touched.  The
    branch marked unreachable is not reached, the key column is never
    missed, and the ratio of the match report never has a zero
    denominator. *)
Theorem preprocess_data_exceptions E df plink path w e w' :
  wf df →
  preprocess_data E df plink path w = (Raise e, w') →
  e = EOFError ∨
  files w' = files w ∧
  ∃ name, e = KeyError name ∧ name ∈ ["effect_allele"; "effect_weight"] ∧
    getitem df name = None.
Proof.
  intros Hwf. unfold preprocess_data. rewrite bind_run.
  destruct (Prompt_ask _ _ w) as [[how|?|?] w1] eqn:Hask; [|done|].
  2:{ apply Prompt_ask_raises in Hask as ->. intros [= <- _]. by left. }
  apply Prompt_ask_inv in Hask as [Hhow Hfs1]. rewrite bind_run.
  destruct (prepare_keys E how df plink w1) as [[keyed|?|?] w2] eqn:Hkeys; [|done|].
  2:{ apply prepare_keys_raises in Hkeys as ->; [|done]. intros [= <- _]. by left. }
  destruct (prepare_keys_inv _ _ _ _ _ _ _ Hkeys) as (keys & Hfs2 & Hlen & ->).
  specialize (Hlen Hwf).
  set (keyed := setitem df "pos_key" (CStr <$> keys)).
  assert (Hwfk : wf keyed) by (apply wf_setitem; [done|by rewrite length_fmap]).
  assert (Hkey : getitem keyed "pos_key" = Some (CStr <$> keys)) by apply get_set_column.
  assert (Hother : ∀ name, name ≠ "pos_key" → getitem keyed name = getitem df name).
  { intros name Hne. by apply get_set_column_ne. }
  unfold assess_and_write. rewrite bind_run.
  rewrite (check_the_files_match_run keyed plink _ w2 Hwfk Hkey). simpl.
  set (n := size _).
  assert (Hcsv : ∀ w3 verdict,
    (to_csv "" (index keyed) (join_columns keyed) path ≫=
       λ _, when (negb verdict) (print_error_misaligned_files;; exit 40)) w3
    = (Raise e, w') → files w3 = files w →
    e = EOFError ∨
    files w' = files w ∧
    ∃ name, e = KeyError name ∧ name ∈ ["effect_allele"; "effect_weight"] ∧
      getitem df name = None).
  { intros w3 verdict Hrun Hfs3. rewrite bind_run in Hrun.
    destruct (to_csv _ _ _ _ w3) as [[[]|?|?] w4] eqn:Hw; [|done|].
    - destruct verdict; simpl in Hrun; [done|].
      by rewrite bind_run, print_error_misaligned_files_run in Hrun.
    - simplify_eq. apply to_csv_raises in Hw as (-> & name & -> & Hin).
      right. split; [done|]. exists name. split; [done|].
      unfold join_columns in Hin. rewrite Hkey, !Hother in Hin by done.
      apply elem_of_cons in Hin as [[=]|Hin].
      apply elem_of_cons in Hin as [[= -> Hnone]|Hin]; [split; [left|done]|].
      apply list_elem_of_singleton in Hin as [= -> Hnone].
      split; [right; left|done]. }
  destruct (more_than_half n (shape0 keyed)); intros Hrun.
  - eapply Hcsv; [exact Hrun|]. simpl. congruence.
  - eapply Hcsv; [exact Hrun|]. congruence.
Qed.

Lemma preprocess_data_exceptions_witness :
  ∃ name, name ∈ ["effect_allele"; "effect_weight"] ∧
    getitem weights_other_names name = None.
Proof.
  pose (w := world ["pos"; "CHR"; "POS"] ∅).
  pose (run := preprocess_data plink_fails weights_other_names panel_six_shared
                 "weights.txt.annotated" w).
  destruct (preprocess_data_exceptions plink_fails weights_other_names panel_six_shared
              "weights.txt.annotated" w (KeyError "effect_allele") run.2)
    as [Heof|(_ & name & _ & Hname & Hmissing)].
  - unfold wf. simpl. repeat constructor.
  - transitivity (run.1, run.2); [apply surjective_pairing|]. f_equal.
  - discriminate Heof.
  - exists name. split; [exact Hname|exact Hmissing].
Defined.

Lemma same_files_prepare_keys E how df plink :
  preserves same_files (prepare_keys E how df plink).
Proof.
  unfold prepare_keys, prep_keys_rsid, prep_keys_chrompos,
    print_non_annotated_plink_file_error, printout.
  case_decide; [|case_decide]; preserves_steps;
    repeat case_match; preserves_steps.
Qed.

Lemma same_files_check_the_files_match df plink :
  preserves same_files (check_the_files_match df plink).
Proof.
  unfold check_the_files_match.
  destruct (getitem df "pos_key"); [|preserves_steps].
  destruct (more_than_half _ _); [|preserves_steps].
  case_decide; preserves_steps.
Qed.

(** X8. A weight table without a column called "effect_allele", or without
    one called "effect_weight", is never matched: [preprocess_data] ends in
    an exception or, for an unannotated panel, with status 30, and it
    leaves every file as it was. *)
Theorem preprocess_data_needs_role_columns E df plink path w :
  getitem df "effect_allele" = None ∨ getitem df "effect_weight" = None →
  files (preprocess_data E df plink path w).2 = files w ∧
  ((preprocess_data E df plink path w).1 = Exit 30 ∨
   ∃ e, (preprocess_data E df plink path w).1 = Raise e).
Proof.
  intros Hmissing. unfold preprocess_data. rewrite bind_run.
  destruct (Prompt_ask _ _ w) as [[how|status|e] w1] eqn:Hask;
    pose proof (same_files_Prompt_ask _ _ _ _ _ Hask) as Hfs1.
  2:{ unfold Prompt_ask in Hask. by destruct (first_choice _ _) as [[? ?]|]. }
  2:{ split; [done|]. right. by eexists. }
  rewrite bind_run.
  destruct (prepare_keys E how df plink w1) as [[keyed|status|e] w2] eqn:Hkeys;
    pose proof (same_files_prepare_keys _ _ _ _ _ _ _ Hkeys) as Hfs2;
    unfold same_files in *.
  2:{ split; [simpl; congruence|]. left.
      destruct (tame_prepare_keys _ _ _ _ _ _ _ Hkeys) as [_ Hex].
      specialize (Hex _ eq_refl). by apply list_elem_of_singleton in Hex as ->. }
  2:{ split; [simpl; congruence|]. right. by eexists. }
  destruct (prepare_keys_inv _ _ _ _ _ _ _ Hkeys) as (keys & _ & _ & ->).
  unfold assess_and_write. rewrite bind_run.
  destruct (check_the_files_match _ plink w2) as [[verdict|status|e] w3] eqn:Hcheck;
    pose proof (same_files_check_the_files_match _ _ _ _ _ Hcheck) as Hfs3;
    unfold same_files in *.
  2:{ destruct (tame_check_the_files_match [] _ _ _ _ _ Hcheck) as [_ Hex].
      by destruct (proj1 (elem_of_nil status) (Hex status eq_refl)). }
  2:{ split; [simpl; congruence|]. right. by eexists. }
  rewrite bind_run.
  assert (∃ name, to_csv "" (index (setitem df "pos_key" (CStr <$> keys)))
                    (join_columns (setitem df "pos_key" (CStr <$> keys))) path w3
                  = (Raise (KeyError name), w3)) as [name ->].
  { unfold to_csv, join_columns.
    rewrite (get_set_column_ne_df "pos_key" df "effect_allele"),
      (get_set_column_ne_df "pos_key" df "effect_weight") by done.
    destruct Hmissing as [Hnone|Hnone].
    - rewrite Hnone. rewrite get_set_column_df. by eexists.
    - rewrite Hnone. rewrite get_set_column_df.
      destruct (getitem df "effect_allele"); by eexists. }
  split; [simpl; congruence|]. right. by eexists.
Qed.

Lemma preprocess_data_needs_role_columns_witness :
  files (preprocess_data plink_fails weights_other_names panel_six_shared
           "weights.txt.annotated" (world ["pos"; "CHR"; "POS"] ∅)).2 = ∅.
Proof.
  apply (preprocess_data_needs_role_columns plink_fails weights_other_names
           panel_six_shared "weights.txt.annotated" (world ["pos"; "CHR"; "POS"] ∅)).
  left. reflexivity.
Defined.

(** ** More on the concordance verdict *)

Lemma shared_keys_mono a a' b :
  (∀ c, c ∈ a → c ∈ a') → (size (shared_keys a b) ≤ size (shared_keys a' b))%nat.
Proof.
  intros Hsub. apply subseteq_size. intros x.
  rewrite !elem_of_shared_keys. intros [Ha Hb]. split; [by apply Hsub|done].
Qed.

(** X9. The verdict looks at the set of panel identifiers only, and it
    grows with it: a weight table, keyed as the script keys it, that is
    accepted against a panel is accepted against every panel that has all
    the identifiers of the first, in whatever order and however often. *)
Theorem check_the_files_match_wider_panel df pos_key plink plink' w :
  wf df → getitem df "pos_key" = Some pos_key →
  Forall (λ key, type_name key = "str") pos_key →
  (∀ id, id ∈ rsid <$> plink → id ∈ rsid <$> plink') →
  (check_the_files_match df plink w).1 = Return true →
  (check_the_files_match df plink' w).1 = Return true.
Proof.
  intros Hwf Hget _ Hsub.
  rewrite !(check_the_files_match_run df _ pos_key w Hwf Hget).
  destruct (more_than_half (size (shared_keys (rsid <$> plink) pos_key)) _) eqn:Hhalf;
    [|done].
  intros _. apply more_than_half_spec in Hhalf.
  pose proof (shared_keys_mono _ _ pos_key Hsub) as Hle.
  rewrite (proj2 (more_than_half_spec _ _)) by lia. done.
Qed.

Lemma check_the_files_match_wider_panel_witness :
  (check_the_files_match ten_weights_keyed (panel_three_shared ++ panel_six_shared)
     (world [] ∅)).1 = Return true.
Proof.
  apply (check_the_files_match_wider_panel ten_weights_keyed
           ((λ p, CStr ("1:" ++ pretty p)) <$> ten_positions) panel_six_shared).
  - unfold wf. simpl. repeat constructor.
  - reflexivity.
  - apply Forall_fmap, Forall_forall. intros p _. reflexivity.
  - intros id Hid. rewrite fmap_app. apply elem_of_app. right. exact Hid.
  - vm_compute. reflexivity.
Defined.

Lemma shared_keys_le_distinct a b :
  (size (shared_keys a b) ≤ size (list_to_set (str_values b) : gset string))%nat.
Proof. unfold shared_keys. apply subseteq_size, intersection_subseteq_r. Qed.

(** X10. Keys that repeat count once.  A weight table, keyed as the script
    keys it, with no more distinct keys than half its rows is rejected
    against every panel, even one that holds every key of the table. *)
Theorem check_the_files_match_repeated_keys df plink pos_key w :
  wf df → getitem df "pos_key" = Some pos_key →
  Forall (λ key, type_name key = "str") pos_key →
  (2 * size (list_to_set (str_values pos_key) : gset string) ≤ shape0 df)%nat →
  check_the_files_match df plink w = (Return false, w).
Proof.
  intros Hwf Hget _ Hfew.
  rewrite (check_the_files_match_run df plink pos_key w Hwf Hget).
  destruct (more_than_half _ _) eqn:Hhalf; [|done].
  apply more_than_half_spec in Hhalf.
  pose proof (shared_keys_le_distinct (rsid <$> plink) pos_key). lia.
Qed.

Lemma check_the_files_match_repeated_keys_witness :
  check_the_files_match repeated_weights_keyed panel_six_shared (world [] ∅)
  = (Return false, world [] ∅).
Proof.
  apply (check_the_files_match_repeated_keys repeated_weights_keyed panel_six_shared
           (CStr <$> ["1:100"; "1:100"; "1:200"; "1:200"])).
  - unfold wf. simpl. repeat constructor.
  - reflexivity.
  - repeat constructor.
  - vm_compute. lia.
Defined.

Lemma str_values_no_str (s : Series) :
  Forall (λ c, type_name c ≠ "str") s → str_values s = [].
Proof.
  induction 1 as [|c s Hc _ IH]; [done|].
  unfold str_values in *. destruct c; csimpl; [done|exact IH..].
Qed.

Lemma more_than_half_0 total : more_than_half 0 total = false.
Proof.
  destruct (more_than_half 0 total) eqn:Hhalf; [|done].
  apply more_than_half_spec in Hhalf. lia.
Qed.

(** X11. Only [str] identifiers can be shared with the keys, which are
    [str].  A panel whose identifiers are all numbers shares nothing with
    a weight table keyed as the script keys it and is rejected, also when
    the keys are those numbers written out. *)
Theorem check_the_files_match_numbered_panel df pos_key plink w :
  getitem df "pos_key" = Some pos_key →
  Forall (λ key, type_name key = "str") pos_key →
  Forall (λ r, type_name (rsid r) ≠ "str") plink →
  check_the_files_match df plink w = (Return false, w).
Proof.
  intros Hget _ Hids. unfold check_the_files_match. rewrite Hget.
  unfold shared_keys.
  rewrite (str_values_no_str (rsid <$> plink)) by (by apply Forall_fmap).
  rewrite list_to_set_nil, intersection_empty_l_L, size_empty.
  by rewrite more_than_half_0.
Qed.

Lemma check_the_files_match_numbered_panel_witness :
  check_the_files_match numbered_weights_keyed panel_numbered (world [] ∅)
  = (Return false, world [] ∅).
Proof.
  apply (check_the_files_match_numbered_panel numbered_weights_keyed
           (CStr <$> ["100"; "200"; "300"]) panel_numbered).
  - reflexivity.
  - repeat constructor.
  - repeat constructor; discriminate.
Defined.

(** ** More on the identifier strategy *)

Lemma no_variant_ids_spec (ids : Series) :
  no_variant_ids ids = true ↔
  ∃ others, ids = CStr "." :: others ∧
    Forall (λ c, c = CStr "." ∨ isna c = true) others.
Proof.
  split.
  - intros Hqc. pose proof (no_variant_ids_inv ids Hqc) as (_ & _ & Hall).
    unfold no_variant_ids in Hqc.
    apply andb_true_iff in Hqc as [_ Hhead%bool_decide_eq_true].
    rewrite head_unique in Hhead.
    destruct ids as [|c others]; simplify_eq/=.
    exists others. split; [done|]. apply Forall_forall. intros c Hc.
    destruct (isna c) eqn:Hna; [by right|left].
    apply Hall; [by right|done].
  - intros (others & -> & Hall).
    unfold no_variant_ids. rewrite head_unique. simpl head.
    rewrite andb_true_iff, !bool_decide_eq_true. split; [|done].
    unfold nunique. rewrite filter_cons_True by done.
    rewrite (unique_constant _ (CStr ".")); [done|done|].
    constructor; [done|]. apply Forall_forall.
    intros c [Hna Hc]%list_elem_of_filter.
    rewrite Forall_forall in Hall. destruct (Hall c Hc); congruence.
Qed.

(** X12. The identifier strategy stops with status 30 exactly for a panel
    whose first record is identified by ["."] and whose every other record
    is identified by ["."] or not at all.  The first record decides: a
    panel that starts with a record without identifier is never stopped,
    whatever follows, and neither is an empty panel. *)
Theorem prep_keys_rsid_stops_iff E pgscatalog_df plink_variants_df w :
  (prep_keys_rsid E pgscatalog_df plink_variants_df w).1 = Exit 30 ↔
  ∃ first others,
    plink_variants_df = first :: others ∧ rsid first = CStr "." ∧
    Forall (λ r, rsid r = CStr "." ∨ isna (rsid r) = true) others.
Proof.
  assert (Hstops : (prep_keys_rsid E pgscatalog_df plink_variants_df w).1 = Exit 30 ↔
                   no_variant_ids (rsid <$> plink_variants_df) = true).
  { destruct (no_variant_ids (rsid <$> plink_variants_df)) eqn:Hqc.
    - by rewrite prep_keys_rsid_stops.
    - split; [|done]. unfold prep_keys_rsid. rewrite Hqc. simpl.
      rewrite bind_run. simpl. rewrite bind_run. unfold Prompt_ask.
      destruct (first_choice _ _) as [[column rest]|]; [|done].
      destruct (getitem pgscatalog_df column); done. }
  rewrite Hstops, no_variant_ids_spec. split.
  - intros (others & Hids & Hall).
    destruct plink_variants_df as [|first rest]; [done|].
    injection Hids as Hfirst <-. exists first, rest.
    split; [done|]. split; [done|]. by apply Forall_fmap in Hall.
  - intros (first & others & -> & Hfirst & Hall).
    exists (rsid <$> others). split; [by rewrite fmap_cons, Hfirst|].
    by apply Forall_fmap.
Qed.

(** ** More on the sample QC *)

Lemma join_inv sep labels w out w' :
  join sep labels w = (out, w') →
  w' = w ∧
  ((out = Return (String.concat sep (str_values labels)) ∧
      Forall (λ c, ∃ s, c = CStr s) labels) ∨
   (∃ msg c, out = Raise (TypeError msg) ∧ c ∈ labels ∧ type_name c ≠ "str")).
Proof.
  unfold join. destruct (list_find _ labels) as [[i c]|] eqn:Hfind; intros [= <- <-].
  - split; [done|]. right.
    apply list_find_Some in Hfind as (Hin & Hc & _).
    eexists _, c. split; [done|]. split; [by eapply list_elem_of_lookup_2|done].
  - split; [done|]. left. split; [done|].
    apply list_find_None in Hfind. eapply Forall_impl; [exact Hfind|].
    intros [s| |] Hc; simpl in Hc; [by eexists|by destruct Hc..].
Qed.

(** How [plink_qc] can end: with the rows whose label is not the label of
    a row with too few SNPs, or in the [TypeError] of [join]. *)
Lemma plink_qc_inv df w out w' :
  plink_qc df w = (out, w') →
  let bad := filter (λ r, too_few_snps (mean (CNT2 <$> df)) r = true) df in
  stdin w' = stdin w ∧ files w' = files w ∧
  ((out = Return (drop_labels (IID <$> bad) df) ∧
      Forall (λ r, ∃ s, IID r = CStr s) bad) ∨
   (∃ msg r, out = Raise (TypeError msg) ∧ r ∈ bad ∧ type_name (IID r) ≠ "str")).
Proof.
  intros Hrun bad. unfold plink_qc in Hrun. fold bad in Hrun.
  case_decide as Hnone.
  - rewrite ret_run in Hrun. injection Hrun as <- <-.
    split; [done|]. split; [done|]. left.
    rewrite Hnone, drop_labels_nil. split; [done|].
    apply fmap_nil_inv in Hnone. by rewrite Hnone.
  - rewrite bind_run, printout_run, bind_run, printout_run, bind_run in Hrun.
    destruct (join "," (IID <$> bad) _) as [out1 w1] eqn:Hjoin.
    apply join_inv in Hjoin as [-> [[-> Hstr]|(msg & c & -> & Hc & Hty)]].
    + rewrite bind_run, printout_run, ret_run in Hrun. injection Hrun as <- <-.
      split; [done|]. split; [done|]. left. split; [done|].
      rewrite Forall_forall in Hstr. apply Forall_forall. intros r Hr.
      apply Hstr. by apply list_elem_of_fmap_2.
    + injection Hrun as <- <-. split; [done|]. split; [done|]. right.
      apply list_elem_of_fmap in Hc as (r & -> & Hr). by exists msg, r.
Qed.

(** X13. What [plink_qc] returns is the score table without the samples
    to drop, in the order of the table: a sample is kept exactly when no
    row under its identifier has a count below 0.95 times the mean count.
    A row with a good count goes too if it shares its identifier with a row
    that has not.  No file is touched and no answer read. *)
Theorem plink_qc_keeps df w kept w' :
  plink_qc df w = (Return kept, w') →
  sublist kept df ∧
  (∀ r, r ∈ kept ↔
     r ∈ df ∧
     ∀ r', r' ∈ df → IID r' = IID r → too_few_snps (mean (CNT2 <$> df)) r' = false) ∧
  stdin w' = stdin w ∧ files w' = files w.
Proof.
  intros Hrun.
  destruct (plink_qc_inv _ _ _ _ Hrun) as (Hin & Hfs & [[Hkept _]|(? & ? & ? & _)]);
    [|done].
  injection Hkept as ->. unfold drop_labels.
  split; [apply sublist_filter|]. split; [|done].
  intros r. rewrite list_elem_of_filter. split.
  - intros [Hnot Hr]. split; [done|]. intros r' Hr' Hsame.
    destruct (too_few_snps _ r') eqn:Hbad; [|done].
    destruct Hnot. rewrite <- Hsame. apply list_elem_of_fmap_2.
    by apply list_elem_of_filter.
  - intros [Hr Hgood]. split; [|done].
    intros (r' & Hsame & [Hbad Hr']%list_elem_of_filter)%list_elem_of_fmap.
    rewrite (Hgood r' Hr') in Hbad; done.
Qed.

Lemma plink_qc_keeps_witness :
  sublist [score (CStr "S1") 100; score (CStr "S2") 100] scores_named.
Proof.
  pose (w := world [] ∅).
  pose (run := plink_qc scores_named w).
  apply (plink_qc_keeps scores_named w [score (CStr "S1") 100; score (CStr "S2") 100] run.2).
  transitivity (run.1, run.2); [apply surjective_pairing|].
  f_equal; vm_compute; reflexivity.
Defined.

(** X14. [plink_qc] ends in one of two ways, and never leaves through
    [exit]: it returns, or the warning that lists the samples to drop
    raises a [TypeError].  It raises exactly when some sample with too few
    SNPs has an identifier that is not a [str]; the counts of the others do
    not matter. *)
Theorem plink_qc_raises_iff df w :
  ((∃ kept, (plink_qc df w).1 = Return kept) ∨
   (∃ msg, (plink_qc df w).1 = Raise (TypeError msg))) ∧
  ((∃ msg, (plink_qc df w).1 = Raise (TypeError msg)) ↔
   ∃ r, r ∈ df ∧ too_few_snps (mean (CNT2 <$> df)) r = true ∧ type_name (IID r) ≠ "str").
Proof.
  destruct (plink_qc df w) as [out w'] eqn:Hrun.
  destruct (plink_qc_inv _ _ _ _ Hrun) as (_ & _ & [[-> Hstr]|(msg & r & -> & Hr & Hty)]);
    simpl.
  - split; [left; by eexists|]. split; [by intros [? ?]|].
    intros (r & Hr & Hbad & Hty). rewrite Forall_forall in Hstr.
    destruct (Hstr r) as [s Hs]; [by apply list_elem_of_filter|].
    rewrite Hs in Hty. by destruct Hty.
  - split; [right; by eexists|]. split; [|by eexists].
    intros _. apply list_elem_of_filter in Hr as [Hbad Hr]. by exists r.
Qed.

(** ** Scoring *)

Lemma subprocess_run_run E argv w rc err fs :
  subprocess E argv (files w) = (rc, err, fs) →
  subprocess_run E argv w
  = (Return (rc, err),
     {| stdin := stdin w; files := fs; trace := trace w ++ [Run argv] |}).
Proof. intros H. unfold subprocess_run. by rewrite H. Qed.

Lemma read_profile_run path w rows :
  files w !! path = Some (Profile rows) → read_profile path w = (Return rows, w).
Proof. intros H. unfold read_profile. by rewrite H. Qed.

(** The lines of the score file. *)
Lemma csv_lines_scores (df : list ScoreRecord) :
  csv_lines "IID" (IID <$> df) [("SCORESUM", SCORESUM <$> df)]
  = ["IID"; "SCORESUM"] :: ((λ r, [csv_field (IID r); csv_field (SCORESUM r)]) <$> df).
Proof.
  unfold csv_lines. f_equal. apply list_eq. intros i.
  rewrite list_lookup_imap, !list_lookup_fmap. csimpl.
  rewrite list_lookup_fmap. by destruct (df !! i).
Qed.

(** X15. When the scorer returns a code other than 0, or leaves no
    [.profile] file, [calculate_prs] prints the error line and then what
    the scorer wrote to its standard error, as it is, and leaves with
    status 20.  Nothing is parsed and no score file is written: the files
    are those the scorer left. *)
Theorem calculate_prs_scorer_failed E plink_prefix path output_prefix w rc err fs :
  subprocess E (plink_command plink_prefix path output_prefix) (files w) = (rc, err, fs) →
  rc ≠ 0 ∨ fs !! (output_prefix ++ ".profile") = None →
  calculate_prs E plink_prefix path output_prefix w
  = (Exit 20,
     {| stdin := stdin w; files := fs;
        trace := trace w ++
          [Printout "Running plink PRS scoring...";
           Run (plink_command plink_prefix path output_prefix);
           Print "ERROR: plink has failed"; Print err] |}).
Proof.
  intros Hplink Hfailed. unfold calculate_prs.
  rewrite bind_run, printout_run, bind_run.
  rewrite (subprocess_run_run _ _ (logged w _) _ _ _ Hplink).
  rewrite bind_run, isfile_run. cbn [files fst snd].
  assert (negb (bool_decide (rc = 0))
          || negb (bool_decide (is_Some (fs !! (output_prefix ++ ".profile")))) = true)
    as ->.
  { destruct Hfailed as [Hrc|Hout].
    - by rewrite (bool_decide_eq_false_2 (rc = 0)).
    - rewrite (bool_decide_eq_false_2 (is_Some _)) by (rewrite Hout; by intros [? ?]).
      by rewrite orb_true_r. }
  cbn [when]. unfold print, emit, exit, logged.
  repeat first [rewrite bind_run | progress cbn [fst snd stdin files trace]].
  rewrite <- !app_assoc. reflexivity.
Qed.

Lemma calculate_prs_scorer_failed_witness :
  (calculate_prs plink_fails "data/panel" "PGS000001.txt.annotated" "out/score"
     (world [] (disk panel_six_shared ten_weights))).1 = Exit 20
  ∧ files (calculate_prs plink_fails "data/panel" "PGS000001.txt.annotated" "out/score"
             (world [] (disk panel_six_shared ten_weights))).2
    = disk panel_six_shared ten_weights.
Proof.
  rewrite (calculate_prs_scorer_failed plink_fails "data/panel" "PGS000001.txt.annotated"
             "out/score" (world [] (disk panel_six_shared ten_weights))
             1 "Error: out of memory" (disk panel_six_shared ten_weights)).
  - split; reflexivity.
  - reflexivity.
  - left. lia.
Defined.

(** X16. When the scorer returns 0 and leaves a [.profile] table, and the
    QC of that table returns, [calculate_prs] returns.  It has written one
    file, [<out>.prs], beside those the scorer left: a header "IID",
    "SCORESUM" and one line per sample the QC kept, in the order of the
    table, and the last thing it has done is to say where the scores
    are. *)
Theorem calculate_prs_writes_scores E plink_prefix path output_prefix w err fs rows kept :
  subprocess E (plink_command plink_prefix path output_prefix) (files w) = (0, err, fs) →
  fs !! (output_prefix ++ ".profile") = Some (Profile rows) →
  (plink_qc rows w).1 = Return kept →
  ∃ w' before,
    calculate_prs E plink_prefix path output_prefix w = (Return tt, w') ∧
    files w' =
      <[output_prefix ++ ".prs" :=
          Csv (["IID"; "SCORESUM"] ::
               ((λ r, [csv_field (IID r); csv_field (SCORESUM r)]) <$> kept))]> fs ∧
    trace w' = (before ++ [Write (output_prefix ++ ".prs");
                           Printout ("PRS is saved to " ++ output_prefix ++ ".prs")])%list.
Proof.
  intros Hplink Hprofile Hqc. unfold calculate_prs.
  rewrite bind_run, printout_run, bind_run.
  rewrite (subprocess_run_run _ _ (logged w _) _ _ _ Hplink).
  rewrite bind_run, isfile_run. cbn [files fst snd].
  rewrite (bool_decide_eq_true_2 (0 = 0)) by done.
  rewrite (bool_decide_eq_true_2 (is_Some _)) by (by rewrite Hprofile).
  cbn [negb orb when]. rewrite bind_run, ret_run, bind_run, printout_run, bind_run.
  rewrite (read_profile_run _ _ rows) by done. rewrite bind_run.
  (* the QC ends as it does in any other world *)
  destruct (plink_qc rows w) as [out0 w0] eqn:Hrun0. simpl in Hqc. subst out0.
  destruct (plink_qc_inv _ _ _ _ Hrun0) as (_ & _ & [[Hkept Hstr]|(? & ? & ? & _)]);
    [|done].
  injection Hkept as Hkept.
  match goal with
  | |- context [plink_qc rows ?w1] => destruct (plink_qc rows w1) as [out1 w1'] eqn:Hrun1
  end.
  destruct (plink_qc_inv _ _ _ _ Hrun1)
    as (Hin1 & Hfs1 & [[-> _]|(msg & r & _ & Hr & Hty)]).
  2:{ rewrite Forall_forall in Hstr. destruct (Hstr r Hr) as [s Hs].
      rewrite Hs in Hty. by destruct Hty. }
  rewrite <- Hkept. rewrite bind_run.
  unfold to_csv. cbn [list_find]. rewrite decide_False by done. csimpl.
  rewrite csv_lines_scores, printout_run.
  eexists _, (trace w1'). split; [reflexivity|]. cbn [files trace logged].
  split; [by rewrite Hfs1|]. by rewrite <- app_assoc.
Qed.

Lemma calculate_prs_writes_scores_witness :
  ∃ w' before,
    calculate_prs plink_scores "data/panel" "PGS000001.txt.annotated" "out/score"
      (world [] ∅) = (Return tt, w') ∧
    files w' =
      <["out/score.prs" :=
          Csv (["IID"; "SCORESUM"] ::
               ((λ r, [csv_field (IID r); csv_field (SCORESUM r)])
                  <$> [score (CStr "S1") 100; score (CStr "S2") 100]))]>
        (<["out/score.profile" := Profile scores_named]> ∅) ∧
    trace w' = (before ++ [Write "out/score.prs";
                           Printout "PRS is saved to out/score.prs"])%list.
Proof.
  apply (calculate_prs_writes_scores plink_scores "data/panel" "PGS000001.txt.annotated"
           "out/score" (world [] ∅) "" _ scores_named).
  - reflexivity.
  - reflexivity.
  - vm_compute. reflexivity.
Defined.

(** ** The order of a run *)

(** A run of [assess_and_write] that returns has reported an accepted
    match and written the join file, in this order. *)
Lemma assess_and_write_accepted df plink path w w' :
  assess_and_write df plink path w = (Return tt, w') →
  ∃ shared,
    (shape0 df < 2 * shared)%nat ∧
    trace w' = (trace w ++ [MatchReport shared (shape0 df) (length plink); Write path])%list.
Proof.
  unfold assess_and_write, check_the_files_match. intros Hrun.
  rewrite bind_run in Hrun.
  destruct (getitem df "pos_key") as [pos_key|]; [|done].
  destruct (more_than_half _ _) eqn:Hhalf.
  - apply more_than_half_spec in Hhalf.
    case_decide; rewrite bind_run in Hrun; simpl in Hrun; [done|].
    rewrite bind_run in Hrun.
    destruct (to_csv _ _ _ _ _) as [[[]|status|e] w1] eqn:Hcsv;
      apply to_csv_inv in Hcsv as [[e' ?]|[? [lines ->]]]; simplify_eq/=.
    rewrite ret_run in Hrun. simplify_eq/=.
    eexists. split; [exact Hhalf|]. by rewrite <- app_assoc.
  - simpl in Hrun. rewrite bind_run in Hrun.
    destruct (to_csv _ _ _ _ _) as [[[]|status|e] w1] eqn:Hcsv;
      apply to_csv_inv in Hcsv as [[e' ?]|[? [lines ->]]]; simplify_eq/=.
Qed.

Lemma preprocess_data_accepted E df plink path w w' :
  preprocess_data E df plink path w = (Return tt, w') →
  ∃ new shared total,
    Forall not_plink new ∧ (total < 2 * shared)%nat ∧
    trace w' = (trace w ++ new ++
                  [MatchReport shared total (length plink); Write path])%list.
Proof.
  unfold preprocess_data. intros Hrun. rewrite bind_run in Hrun.
  destruct (Prompt_ask _ _ w) as [[how|status|e] w1] eqn:Hask; [|done..].
  destruct (tame_Prompt_ask not_plink [] _ _ ltac:(by intros ?) _ _ _ Hask)
    as [(new1 & Htr1 & Hok1) _].
  rewrite bind_run in Hrun.
  destruct (prepare_keys E how df plink w1) as [[keyed|status|e] w2] eqn:Hkeys; [|done..].
  destruct (tame_prepare_keys _ _ _ _ _ _ _ Hkeys) as [(new2 & Htr2 & Hok2) _].
  apply assess_and_write_accepted in Hrun as (shared & Hhalf & Htr3).
  exists (new1 ++ new2)%list, shared, (shape0 keyed).
  split; [by apply Forall_app|]. split; [done|].
  rewrite Htr3, Htr2, Htr1, <- !app_assoc. done.
Qed.

Lemma not_plink_plink_qc df : tame not_plink [] (plink_qc df).
Proof.
  unfold plink_qc, join, printout. case_decide; [apply tame_ret|].
  do 2 (apply tame_bind; [tame_steps|intros _]).
  apply tame_bind; [|intros names; tame_steps].
  destruct (list_find _ _) as [[i c]|]; tame_steps.
Qed.

(** [calculate_prs] runs the scorer first of all, and once. *)
Lemma calculate_prs_trace E plink_prefix path output_prefix w out w' :
  calculate_prs E plink_prefix path output_prefix w = (out, w') →
  ∃ after,
    Forall not_plink after ∧
    trace w' = (trace w ++
                  [Printout "Running plink PRS scoring...";
                   Run (plink_command plink_prefix path output_prefix)] ++ after)%list.
Proof.
  unfold calculate_prs. intros Hrun.
  rewrite bind_run, printout_run, bind_run in Hrun.
  unfold subprocess_run in Hrun.
  destruct (subprocess E _ _) as [[rc err] fs]. cbn [fst snd] in Hrun.
  match type of Hrun with
  | (let (_, _) := ?rest ?w1 in _) = _ =>
      assert (tame not_plink [20] rest) as Hrest; [|destruct (rest w1) as [out1 w1'] eqn:Hrun1]
  | ?rest ?w1 = _ => assert (tame not_plink [20] rest) as Hrest
  end.
  { unfold print, printout.
    do 4 (apply tame_bind; [tame_steps|intros ?]).
    apply tame_bind; [|intros ?; tame_steps].
    eapply tame_weaken; [|apply not_plink_plink_qc]. by intros ? ?%elem_of_nil. }
  destruct (Hrest _ _ _ Hrun) as [(after & Htr & Hok) _].
  exists after. split; [done|]. rewrite Htr. unfold logged. simpl.
  by rewrite <- !app_assoc.
Qed.

(** X17. In a run of [main] the scorer is run once at most, and only
    after an accepted match: either the run has not started the scorer at
    all, or what it has done is, in this order, things other than running
    the scorer, the report of a match of more than half the weight rows,
    the writing of the join file, the announcement, the scorer on the
    genetic data, that join file and the output prefix, and again things
    other than running the scorer. *)
Theorem scorer_runs_after_accepted_match E args w outcome w' :
  main E args w = (outcome, w') →
  (∃ new, Forall not_plink new ∧ trace w' = (trace w ++ new)%list) ∨
  (∃ plink_prefix output_prefix before shared total panel path after,
     genetic args = Some plink_prefix ∧ out args = Some output_prefix ∧
     Forall not_plink before ∧ Forall not_plink after ∧
     (total < 2 * shared)%nat ∧
     trace w' = (trace w ++ before ++
                   [MatchReport shared total panel; Write path;
                    Printout "Running plink PRS scoring...";
                    Run (plink_command plink_prefix path output_prefix)] ++ after)%list).
Proof.
  unfold main. intros Hrun. rewrite bind_run in Hrun.
  destruct (check_input args w) as [[[]|status|e] w1] eqn:Hcheck;
    destruct (tame_check_input _ _ _ _ Hcheck) as [(new1 & Htr1 & Hok1) _].
  2,3: simplify_eq; left; by exists new1.
  destruct (genetic args) as [plink_prefix|] eqn:Hg;
    [|unfold raise in Hrun; simplify_eq/=; left; by exists new1].
  destruct (prs_wm args) as [prs_wm_text_file|];
    [|unfold raise in Hrun; simplify_eq/=; left; by exists new1].
  destruct (out args) as [output_prefix|] eqn:Ho;
    [|unfold raise in Hrun; simplify_eq/=; left; by exists new1].
  rewrite bind_run in Hrun.
  destruct (load_data E _ _ w1) as [[[[pgs panel] file]|status|e] w2] eqn:Hload;
    destruct (tame_load_data _ _ _ _ _ _ Hload) as [(new2 & Htr2 & Hok2) _].
  2,3: simplify_eq; left; exists (new1 ++ new2)%list;
       (split; [by apply Forall_app|by rewrite Htr2, Htr1, <- app_assoc]).
  rewrite bind_run in Hrun.
  destruct (preprocess_data E pgs panel file w2) as [[[]|status|e] w3] eqn:Hprep.
  2,3: destruct (tame_preprocess_data _ _ _ _ _ _ _ Hprep) as [(new3 & Htr3 & Hok3) _];
       simplify_eq; left; exists (new1 ++ new2 ++ new3)%list;
       (split; [by repeat (apply Forall_app; split)
               |by rewrite Htr3, Htr2, Htr1, <- !app_assoc]).
  apply preprocess_data_accepted in Hprep as (new3 & shared & total & Hok3 & Hhalf & Htr3).
  apply calculate_prs_trace in Hrun as (after & Hok4 & Htr4).
  right. exists plink_prefix, output_prefix, (new1 ++ new2 ++ new3)%list,
    shared, total, (length panel), file, after.
  split; [done|]. split; [done|].
  split; [by repeat (apply Forall_app; split)|]. split; [done|]. split; [done|].
  rewrite Htr4, Htr3, Htr2, Htr1, <- !app_assoc. done.
Qed.

Lemma scorer_runs_after_accepted_match_witness :
  let run := main plink_scores full_args
               (world locus_answers (disk panel_six_shared ten_weights)) in
  (∃ new, Forall not_plink new ∧ trace run.2 = ([] ++ new)%list) ∨
  (∃ plink_prefix output_prefix before shared total panel path after,
     genetic full_args = Some plink_prefix ∧
     out full_args = Some output_prefix ∧
     Forall not_plink before ∧ Forall not_plink after ∧
     (total < 2 * shared)%nat ∧
     trace run.2 = ([] ++ before ++
                   [MatchReport shared total panel; Write path;
                    Printout "Running plink PRS scoring...";
                    Run (plink_command plink_prefix path output_prefix)] ++ after)%list).
Proof.
  intros run.
  apply (scorer_runs_after_accepted_match plink_scores full_args
           (world locus_answers (disk panel_six_shared ten_weights)) run.1 run.2).
  apply surjective_pairing.
Defined.

(** ** The files a run writes *)

Global Instance same_file_steady path : Steady (same_file path).
Proof. split; unfold same_file; simpl; congruence. Qed.

Lemma same_file_same_files {A} path (m : M A) :
  preserves same_files m → preserves (same_file path) m.
Proof. intros Hm w out w' Hrun. unfold same_file. by rewrite (Hm _ _ _ Hrun). Qed.

Lemma same_file_to_csv path index_name idx cols target :
  target ≠ path → preserves (same_file path) (to_csv index_name idx cols target).
Proof.
  intros Hne w out w' Hrun. unfold same_file, to_csv in *.
  destruct (list_find _ cols) as [[? [? ?]]|]; simplify_eq/=; [done|].
  by rewrite lookup_insert_ne.
Qed.

Lemma same_file_subprocess_run path E argv :
  (∀ argv fs, (subprocess E argv fs).2 !! path = fs !! path) →
  preserves (same_file path) (subprocess_run E argv).
Proof.
  intros HE w out w' Hrun. unfold same_file, subprocess_run in *.
  specialize (HE argv (files w)).
  destruct (subprocess E argv (files w)) as [[rc err] fs]. by simplify_eq/=.
Qed.

Lemma same_files_plink_qc df : preserves same_files (plink_qc df).
Proof. intros w out w' Hrun. by apply plink_qc_inv in Hrun as (_ & Hfs & _). Qed.

Lemma same_file_check_input path args : preserves (same_file path) (check_input args).
Proof.
  apply same_file_same_files. intros w out w' Hrun.
  by destruct (same_world_check_input _ _ _ _ Hrun).
Qed.

Section SameFile.
Context (path : string) (E : Env).
Hypothesis external : ∀ argv fs, (subprocess E argv fs).2 !! path = fs !! path.

Lemma same_file_load_data plink_prefix prs_wm_text_file :
  preserves (same_file path) (load_data E plink_prefix prs_wm_text_file).
Proof.
  unfold load_data. apply preserves_bind; [apply _| |intros unpacked].
  { unfold maybe_unpack, printout. case_match; [|apply preserves_ret; apply _].
    apply preserves_bind; [apply _|apply preserves_emit; apply _|intros _].
    apply preserves_bind; [apply _|by apply same_file_subprocess_run|intros process].
    preserves_steps. }
  apply preserves_bind; [apply _|apply preserves_emit; apply _|intros _].
  apply preserves_bind;
    [apply _|apply same_file_same_files, same_files_load_prs_wm|intros df].
  apply preserves_bind;
    [apply _|apply same_file_same_files, same_files_annotate_pgscatalog_file|intros mapper].
  unfold printout. preserves_steps.
Qed.

Lemma same_file_preprocess_data df plink processed_wm_text_file :
  processed_wm_text_file ≠ path →
  preserves (same_file path) (preprocess_data E df plink processed_wm_text_file).
Proof.
  intros Hne. unfold preprocess_data.
  apply preserves_bind;
    [apply _|apply same_file_same_files, same_files_Prompt_ask|intros how].
  apply preserves_bind;
    [apply _|apply same_file_same_files, same_files_prepare_keys|intros keyed].
  unfold assess_and_write.
  apply preserves_bind;
    [apply _|apply same_file_same_files, same_files_check_the_files_match|intros verdict].
  apply preserves_bind; [apply _|by apply same_file_to_csv|intros _].
  unfold print_error_misaligned_files. preserves_steps.
Qed.

Lemma same_file_calculate_prs plink_prefix processed_wm_text_file output_prefix :
  output_prefix ++ ".prs" ≠ path →
  preserves (same_file path)
    (calculate_prs E plink_prefix processed_wm_text_file output_prefix).
Proof.
  intros Hne. unfold calculate_prs, printout, print.
  apply preserves_bind; [apply _|apply preserves_emit; apply _|intros _].
  apply preserves_bind; [apply _|by apply same_file_subprocess_run|intros process].
  apply preserves_bind; [apply _|apply preserves_isfile; apply _|intros found].
  apply preserves_bind; [apply _|preserves_steps|intros _].
  apply preserves_bind; [apply _|apply preserves_emit; apply _|intros _].
  apply preserves_bind; [apply _|apply preserves_read_profile; apply _|intros rows].
  apply preserves_bind;
    [apply _|apply same_file_same_files, same_files_plink_qc|intros kept].
  apply preserves_bind; [apply _|by apply same_file_to_csv|intros _].
  apply preserves_emit; apply _.
Qed.
End SameFile.

(** The join file goes beside the weight matrix, unpacked. *)
Lemma load_data_path E plink_prefix prs_wm_text_file w df plink processed_wm_text_file w' :
  load_data E plink_prefix prs_wm_text_file w
    = (Return (df, plink, processed_wm_text_file), w') →
  ∃ unpacked,
    (unpacked = prs_wm_text_file ∨ prs_wm_text_file = unpacked ++ ".gz") ∧
    processed_wm_text_file = unpacked ++ ".annotated".
Proof.
  unfold load_data. intros Hrun. rewrite bind_run in Hrun.
  destruct (maybe_unpack E _ w) as [[unpacked|?|?] w1] eqn:Hunpack; [|done..].
  apply maybe_unpack_inv in Hunpack.
  rewrite bind_run, printout_run, bind_run in Hrun.
  destruct (load_prs_wm unpacked _) as [[parsed|?|?] w2]; [|done..].
  rewrite bind_run in Hrun.
  destruct (annotate_pgscatalog_file parsed w2) as [[mapper|?|?] w3]; [|done..].
  rewrite bind_run, printout_run, bind_run in Hrun.
  destruct (read_bim _ _) as [[rows|?|?] w4]; [|done..].
  rewrite bind_run, printout_run, ret_run in Hrun. simplify_eq/=.
  by exists unpacked.
Qed.

(** X18. Of itself the script writes two files and no other: the join
    file, at the path of the unpacked weight matrix followed by
    ".annotated", and the score file, at the output prefix followed by
    ".prs".  Any other file that [gunzip] and the scorer leave alone is,
    after a run of [main] however it ends, what it was before: no input is
    overwritten or removed. *)
Theorem main_writes_two_files E args w outcome w' path :
  (∀ argv fs, (subprocess E argv fs).2 !! path = fs !! path) →
  main E args w = (outcome, w') →
  files w' !! path = files w !! path ∨
  (∃ p unpacked,
     prs_wm args = Some p ∧ (unpacked = p ∨ p = unpacked ++ ".gz") ∧
     path = unpacked ++ ".annotated") ∨
  (∃ o, out args = Some o ∧ path = o ++ ".prs").
Proof.
  intros external Hrun. unfold main in Hrun. rewrite bind_run in Hrun.
  destruct (check_input args w) as [[[]|status|e] w1] eqn:Hcheck;
    pose proof (same_file_check_input path _ _ _ _ Hcheck) as Hfs1.
  2,3: simplify_eq; by left.
  destruct (genetic args) as [plink_prefix|];
    [|unfold raise in Hrun; simplify_eq/=; by left].
  destruct (prs_wm args) as [prs_wm_text_file|];
    [|unfold raise in Hrun; simplify_eq/=; by left].
  destruct (out args) as [output_prefix|];
    [|unfold raise in Hrun; simplify_eq/=; by left].
  rewrite bind_run in Hrun.
  destruct (load_data E _ _ w1) as [[[[pgs panel] file]|status|e] w2] eqn:Hload;
    pose proof (same_file_load_data path E external _ _ _ _ _ Hload) as Hfs2;
    unfold same_file in *.
  2,3: simplify_eq; left; congruence.
  apply load_data_path in Hload as (unpacked & Hunpacked & ->).
  destruct (decide (unpacked ++ ".annotated" = path)) as [Hjoin|Hjoin].
  { right. left. by exists prs_wm_text_file, unpacked. }
  destruct (decide (output_prefix ++ ".prs" = path)) as [Hprs|Hprs].
  { right. right. by exists output_prefix. }
  left. etrans; [|etrans; [exact Hfs2|exact Hfs1]].
  eapply (preserves_bind (same_file path)); [| |exact Hrun].
  - by apply same_file_preprocess_data.
  - intros []. by apply same_file_calculate_prs.
Qed.

Lemma main_writes_two_files_witness :
  files (main plink_fails full_args
           (world locus_answers (disk panel_six_shared ten_weights))).2 !! "data/panel.bim"
  = Some (Bim panel_six_shared).
Proof.
  pose (w := world locus_answers (disk panel_six_shared ten_weights)).
  pose (run := main plink_fails full_args w).
  destruct (main_writes_two_files plink_fails full_args w run.1 run.2 "data/panel.bim")
    as [Hsame|[(p & unpacked & Hp & Hunpacked & Hpath)|(o & Ho & Hpath)]].
  - reflexivity.
  - apply surjective_pairing.
  - exact Hsame.
  - apply (f_equal String.length) in Hpath. rewrite string_length_app in Hpath.
    injection Hp as <-. destruct Hunpacked as [->|Hgz].
    + vm_compute in Hpath. discriminate Hpath.
    + apply (f_equal String.length) in Hgz. rewrite string_length_app in Hgz.
      simpl in Hpath, Hgz. lia.
  - injection Ho as <-. vm_compute in Hpath. discriminate Hpath.
Defined.

(** ** The message panel *)

Lemma split_nonempty sep s : split sep s ≠ [].
Proof.
  destruct s as [|c s]; simpl; [done|].
  case_decide; [done|]. by destruct (split sep s).
Qed.

(** A piece without separator splits into itself. *)
Lemma split_piece_cons sep c p :
  split sep (String c p) = [String c p] ↔ c ≠ sep ∧ split sep p = [p].
Proof.
  simpl. case_decide as Hc.
  - split; [|by intros [? _]]. intros Heq.
    pose proof (split_nonempty sep p). by destruct (split sep p).
  - split.
    + intros Heq. split; [done|].
      pose proof (split_nonempty sep p). destruct (split sep p) as [|q qs]; [done|].
      by simplify_eq.
    + intros [_ ->]. done.
Qed.

Lemma split_pieces sep s : Forall (λ p, split sep p = [p]) (split sep s).
Proof.
  induction s as [|c s IH]; simpl; [by repeat constructor|].
  case_decide as Hc; [by constructor|].
  pose proof (split_nonempty sep s).
  destruct (split sep s) as [|p ps]; [done|].
  apply Forall_cons in IH as [Hp Hps]. constructor; [|done].
  by apply split_piece_cons.
Qed.

Lemma split_app_sep sep p s :
  split sep p = [p] → split sep (p ++ String sep s) = p :: split sep s.
Proof.
  induction p as [|c p IH]; intros Hp.
  - change (split sep (String sep s) = "" :: split sep s). simpl.
    by rewrite decide_True.
  - apply split_piece_cons in Hp as [Hc Hp].
    change (split sep (String c (p ++ String sep s)) = String c p :: split sep s).
    simpl. rewrite decide_False by done. by rewrite IH.
Qed.

(** Joining pieces and splitting again gives the pieces back. *)
Lemma split_concat sep pieces :
  pieces ≠ [] → Forall (λ p, split sep p = [p]) pieces →
  split sep (String.concat (String sep EmptyString) pieces) = pieces.
Proof.
  induction pieces as [|p pieces IH]; [done|]. intros _ Hall.
  apply Forall_cons in Hall as [Hp Hall].
  destruct pieces as [|q pieces]; [done|].
  change (split sep (p ++ String sep (String.concat (String sep EmptyString) (q :: pieces)))
          = p :: q :: pieces).
  rewrite split_app_sep by done. by rewrite IH.
Qed.

Lemma last_items_nonempty {A} n (xs : list A) :
  (0 < n)%nat → xs ≠ [] → last_items n xs ≠ [].
Proof.
  intros Hn Hxs Hnil. unfold last_items in Hnil.
  apply (f_equal length) in Hnil. rewrite length_drop in Hnil.
  destruct xs; simpl in *; [done|lia].
Qed.

(** X19. The main panel shows the last thirty lines of what it showed
    before followed by the new text: read line by line, the text [printout]
    puts in the panel is the last thirty of the old lines and the new
    lines, and so never more than thirty lines, the newest last. *)
Theorem new_text_last_thirty_lines old_text text :
  split newline (new_text old_text text)
    = last_items 30 (split newline old_text ++ split newline text)%list ∧
  (length (split newline (new_text old_text text)) ≤ 30)%nat ∧
  ((length (split newline text) ≤ 30)%nat →
   ∃ kept : list string,
     split newline (new_text old_text text) = (kept ++ split newline text)%list).
Proof.
  assert (Hsplit : split newline (new_text old_text text)
    = last_items 30 (split newline old_text ++ split newline text)%list).
  { unfold new_text. apply split_concat.
    - apply last_items_nonempty; [lia|].
      intros [Hold _]%app_eq_nil. by apply split_nonempty in Hold.
    - unfold last_items. apply Forall_drop, Forall_app. split; apply split_pieces. }
  split; [done|]. rewrite Hsplit. unfold last_items. split.
  - rewrite length_drop. lia.
  - intros Hfew. rewrite length_app.
    exists (drop (length (split newline old_text) + length (split newline text) - 30)
              (split newline old_text)).
    rewrite drop_app.
    replace (length (split newline old_text) + length (split newline text) - 30
             - length (split newline old_text))%nat with 0%nat by lia.
    done.
Qed.

(** ** Column roles from the command line *)

Lemma set_role_lookup key role columns k :
  set_role key role columns !! k
  = if decide (is_Some key ∧ k = key) then Some role else columns !! k.
Proof.
  unfold set_role. destruct key as [name|].
  - case_decide as Hk.
    + destruct Hk as [_ ->]. apply lookup_insert_eq.
    + apply lookup_insert_ne. intros <-. apply Hk. eauto.
  - rewrite decide_False; [done|]. by intros [[? ?] _].
Qed.

(** X20. In the dictionary [parse_pgscatalog_wm_columns] builds, a column
    that is named for several roles has the role assigned last, in the
    order effect allele, weight, reference allele, rsID, chromosome,
    position.  The two required options are entered even when they are not
    given, under the key [None], the weight over the effect allele; the
    four others only when given. *)
Theorem parse_pgscatalog_wm_columns_roles args k :
  parse_pgscatalog_wm_columns args !! k =
    if decide (is_Some (pos_col args) ∧ k = pos_col args) then Some "chr_position"
    else if decide (is_Some (chrom_col args) ∧ k = chrom_col args) then Some "chr_name"
    else if decide (is_Some (rsid_col args) ∧ k = rsid_col args) then Some "rsID"
    else if decide (is_Some (ref_allele_col args) ∧ k = ref_allele_col args)
      then Some "reference_allele"
    else if decide (k = beta_col args) then Some "effect_weight"
    else if decide (k = effect_allele_col args) then Some "effect_allele"
    else None.
Proof.
  unfold parse_pgscatalog_wm_columns. rewrite !set_role_lookup.
  repeat (case_decide; [done|]).
  case_decide as Hb; [subst k; apply lookup_insert_eq|].
  rewrite lookup_insert_ne by done.
  case_decide as Ha; [subst k; apply lookup_insert_eq|].
  rewrite lookup_insert_ne by done. apply lookup_empty.
Qed.

(** * A weight matrix under column names of its own *)

(** The run of this section: the weight matrix has the columns CHR, POS,
    A1 and BETA; the operator names BETA as the weight and A1 as the effect
    allele, asks for locus keys and names CHR and POS; the panel shares
    three of the ten loci.  [load_data] hands the dictionary of new names
    to [rename] without [columns=] (line 270), so the columns keep their
    names, and [preprocess_data] selects "effect_allele" and
    "effect_weight" for the join file (line 312). *)

(** C5. On this run the join file is not written, although the verdict is
    reached and is a rejection: the table comes back from [load_data]
    under its own column names, it is keyed, the verdict on the keyed
    table is "rejected", and then the selection of the columns of the
    join file raises [KeyError].  There was no join file before the run
    and there is none after it. *)
Theorem join_file_missing_under_other_column_names :
  let w := world other_names_answers (disk panel_three_shared weights_other_names) in
  let run := main plink_fails full_args w in
  (load_data plink_fails "data/panel" "PGS000001.txt" w).1
    = Return (weights_other_names, panel_three_shared, "PGS000001.txt.annotated") ∧
  (prepare_keys plink_fails CHROMPOS weights_other_names panel_three_shared
     (world ["CHR"; "POS"] ∅)).1 = Return other_names_keyed ∧
  (check_the_files_match other_names_keyed panel_three_shared (world [] ∅)).1
    = Return false ∧
  (∃ name, run.1 = Raise (KeyError name)) ∧
  files w !! "PGS000001.txt.annotated" = None ∧
  files run.2 !! "PGS000001.txt.annotated" = None.
Proof.
  intros w run.
  split; [vm_compute; reflexivity|].
  split; [vm_compute; reflexivity|].
  split; [vm_compute; reflexivity|].
  split; [eexists; vm_compute; reflexivity|].
  split; vm_compute; reflexivity.
Qed.

(** C6. On this run, with a scorer that would work, the rejected verdict is
    not followed by the diagnostic and the process does not leave with
    status 40: the run ends in the [KeyError], that is with status 1, and
    nothing at all has been printed by [print].  No program has been
    run. *)
Theorem rejected_run_ends_in_exception :
  let w := world other_names_answers (disk panel_three_shared weights_other_names) in
  let run := main plink_scores full_args w in
  (check_the_files_match other_names_keyed panel_three_shared (world [] ∅)).1
    = Return false ∧
  (∃ name, run.1 = Raise (KeyError name)) ∧
  process_status run.1 = 1 ∧
  Forall (λ ev, ¬ printed ev) (trace run.2) ∧
  Forall (λ ev, ¬ ran ev) (trace run.2).
Proof.
  intros w run.
  split; [vm_compute; reflexivity|].
  split; [eexists; vm_compute; reflexivity|].
  split; [vm_compute; reflexivity|].
  split.
  - apply (bool_decide_unpack _). vm_compute. reflexivity.
  - apply (bool_decide_unpack _). vm_compute. reflexivity.
Qed.
